(** * Certificate checker: address derivation, existence probe, batch loop

    A shallow embedding of [anu.py]: [email_to_filename], [check_pdf_exists],
    [process_event] (the reading of the emails, the per-email loop, the
    summary and the results file) and the menu loop of [main].

    Conventions of the embedding.
    - A Python [str] is a [string]; one [ascii] is one character, with code
      point below 256.  HTTP header values reach the program decoded as
      Latin-1, so this is exact for them.
    - A Python [int] is a [Z].
    - [requests.head] is the only source of nondeterminism.  It is a
      parameter [net]: the answer of the remote end to the k-th request the
      program issues, for a given URL.
    - Effects are threaded through a [world]: the number of requests issued
      so far and the log of requests and sleeps.  Console output
      ([print_colored]) changes neither control flow nor any returned value
      and is left out of the log. *)

From Stdlib Require Import ZArith String Ascii List Lia Bool.
From stdpp Require Import gmap strings pretty.
Import ListNotations.

Local Open Scope string_scope.
Local Open Scope Z_scope.

(** ** Strings as Python uses them *)

Module PyStr.

(** [s.replace(old, new)] for one-character [old] and [new]: every
    occurrence is replaced, everything else is kept. *)
Fixpoint replace (old new : ascii) (s : string) : string :=
  match s with
  | EmptyString => EmptyString
  | String c s' =>
      String (if Ascii.eqb c old then new else c) (replace old new s')
  end.

(** [c in s] for a one-character [c]. *)
Fixpoint contains_char (c : ascii) (s : string) : bool :=
  match s with
  | EmptyString => false
  | String d s' => Ascii.eqb d c || contains_char c s'
  end.

(** [s.startswith(p)]. *)
Fixpoint startswith (p s : string) : bool :=
  match p, s with
  | EmptyString, _ => true
  | String _ _, EmptyString => false
  | String a p', String b s' => Ascii.eqb a b && startswith p' s'
  end.

(** [sub in s]: [sub] occurs in [s] as a contiguous substring. *)
Fixpoint contains (sub s : string) : bool :=
  startswith sub s ||
  match s with
  | EmptyString => false
  | String _ s' => contains sub s'
  end.

(** [str.lower] on one character: the ASCII capitals and the Latin-1
    capitals (0xC0 to 0xDE, the multiplication sign 0xD7 apart) move up by
    32; every other character below 256 is its own lower case. *)
Definition lower_char (c : ascii) : ascii :=
  let n := N_of_ascii c in
  if ((65 <=? n) && (n <=? 90))%N then ascii_of_N (n + 32)
  else if ((192 <=? n) && (n <=? 222) && negb (n =? 215))%N
       then ascii_of_N (n + 32)
  else c.

Fixpoint lower (s : string) : string :=
  match s with
  | EmptyString => EmptyString
  | String c s' => String (lower_char c) (lower s')
  end.

(** [str.isspace] on one character below 256: tab to carriage return,
    the four separators 0x1C to 0x1F, space, NEL and the no-break space. *)
Definition isspace (c : ascii) : bool :=
  let n := N_of_ascii c in
  (((9 <=? n) && (n <=? 13)) || ((28 <=? n) && (n <=? 32))
   || (n =? 133) || (n =? 160))%N.

Fixpoint lstrip (s : string) : string :=
  match s with
  | EmptyString => EmptyString
  | String c s' => if isspace c then lstrip s' else s
  end.

Fixpoint rstrip (s : string) : string :=
  match s with
  | EmptyString => EmptyString
  | String c s' =>
      match rstrip s' with
      | EmptyString => if isspace c then EmptyString else String c EmptyString
      | r => String c r
      end
  end.

(** [s.strip()]: white space removed at both ends. *)
Definition strip (s : string) : string := rstrip (lstrip s).

(** Truth value of a string: [not s] holds for the empty string only. *)
Definition is_empty (s : string) : bool :=
  match s with EmptyString => true | String _ _ => false end.

(** [str(n)] and [f"{n}"] for an [int]. *)
Definition of_int (n : Z) : string := pretty n.

End PyStr.

(** ** The address of a certificate *)

(** [email_to_filename]: the lower-casing step is commented out in the
    source; the only transformation left is ['@'] to ['_']. *)
Definition email_to_filename (email : string) : string :=
  PyStr.replace "@" "_" email.

(** The f-string of [check_pdf_exists] that builds the URL. *)
Definition certificate_url (email_filename event_code : string) : string :=
  "https://bbpvpbekasi.kemnaker.go.id/bulanvokasi/sertifikatbv/"
  +:+ event_code +:+ "/" +:+ email_filename +:+ ".pdf".

(** ** The network and the world *)

(** The exception classes of [requests] that the program tells apart.
    [Timeout] and [ConnectionError] are subclasses of [RequestException];
    [ConnectTimeout] is a subclass of both, hence two flags rather than a
    three-way tag.  [exc_str] is [str(e)]. *)
Record RequestException : Type := mkRequestException {
  is_Timeout : bool;
  is_ConnectionError : bool;
  exc_str : string
}.

(** What the program reads of a response.  [resp_headers] is the
    case-insensitive dictionary of [requests], keyed by lower-cased name. *)
Record Response : Type := mkResponse {
  status_code : Z;
  resp_headers : gmap string string
}.

(** [headers.get(key, default)] on the case-insensitive dictionary. *)
Definition headers_get (h : gmap string string) (key dflt : string) : string :=
  default dflt (h !! PyStr.lower key).

Inductive head_result : Type :=
| Responded (r : Response)
| Failed (e : RequestException).

Inductive event : Type :=
| EvRequest (url : string)
| EvSleep (seconds : Z).

Record world : Type := mkWorld {
  calls : nat;
  log : list event
}.

(** Exceptions that can travel through the modelled code. *)
Inductive exn : Type :=
| RequestExn (e : RequestException)
| ValueError (msg : string)
| OverflowError.

Inductive res (A : Type) : Type :=
| Ok (a : A) (w : world)
| Raise (e : exn) (w : world).
Arguments Ok {A} a w.
Arguments Raise {A} e w.

(** Computations: state passing over the world, with exceptions. *)
Definition M (A : Type) : Type := world -> res A.

Definition ret {A} (a : A) : M A := fun w => Ok a w.

Definition bind {A B} (m : M A) (k : A -> M B) : M B :=
  fun w => match m w with
           | Ok a w' => k a w'
           | Raise e w' => Raise e w'
           end.

Notation "x <- m ;; k" := (bind m (fun x => k))
  (at level 100, m at next level, right associativity).
Notation "m ;;; k" := (bind m (fun _ => k))
  (at level 100, right associativity).

(** The largest number of seconds [time.sleep] takes for an [int]: the
    length is kept as a signed 64-bit count of nanoseconds. *)
Definition sleep_max : Z := 9223372036.

(** What [time.sleep(seconds)] raises for an [int] it does not take: an
    [OverflowError] when the length does not fit the clock, whatever its
    sign, and otherwise a [ValueError] when it is negative.  [None]: the
    length is taken. *)
Definition sleep_refusal (seconds : Z) : option exn :=
  if (seconds <? - sleep_max) || (sleep_max <? seconds) then Some OverflowError
  else if seconds <? 0 then Some (ValueError "sleep length must be non-negative")
  else None.

(** Number of requests and of sleeps in a log. *)
Definition is_request (e : event) : bool :=
  match e with EvRequest _ => true | EvSleep _ => false end.
Definition is_sleep (e : event) : bool :=
  match e with EvSleep _ => true | EvRequest _ => false end.
Definition requests_in (l : list event) : nat := length (List.filter is_request l).
Definition sleeps_in (l : list event) : nat := length (List.filter is_sleep l).

Section Program.

(** The remote end: its answer to the k-th request (counted from 0 over
    the whole run) when that request is for [url]. *)
Variable net : nat -> string -> head_result.

(** [requests.head(url, timeout=10, allow_redirects=True)]. *)
Definition requests_head (url : string) : M Response :=
  fun w =>
    let w' := mkWorld (S (calls w)) (log w ++ [EvRequest url]) in
    match net (calls w) url with
    | Responded r => Ok r w'
    | Failed e => Raise (RequestExn e) w'
    end.

(** [time.sleep(seconds)]: a length it does not take raises, and nothing
    is slept. *)
Definition time_sleep (seconds : Z) : M unit :=
  fun w =>
    match sleep_refusal seconds with
    | Some e => Raise e w
    | None => Ok tt (mkWorld (calls w) (log w ++ [EvSleep seconds]))
    end.

(** [try: body / except Timeout: .. / except ConnectionError: .. /
    except RequestException as e: ..]: the clauses are tried in order, an
    exception of no listed class goes on to the caller. *)
Definition try_except {A} (body : M A)
    (on_timeout on_connection_error : M A)
    (on_request_exception : RequestException -> M A) : M A :=
  fun w =>
    match body w with
    | Ok a w' => Ok a w'
    | Raise (RequestExn e) w' =>
        if is_Timeout e then on_timeout w'
        else if is_ConnectionError e then on_connection_error w'
        else on_request_exception e w'
    | Raise e w' => Raise e w'
    end.

(** [range(lo, hi)]. *)
Definition range (lo hi : Z) : list Z := seqZ lo (hi - lo).

(** [for x in xs: body], where the body either returns from the enclosing
    function ([Some v]) or goes on to the next element ([None]); [None] at
    the end means the loop ran to completion. *)
Fixpoint for_in {A B} (xs : list A) (body : A -> M (option B)) : M (option B) :=
  match xs with
  | [] => ret None
  | x :: xs' =>
      r <- body x ;;
      match r with
      | Some v => ret (Some v)
      | None => for_in xs' body
      end
  end.

(** The tuple [(exists, url, message)] a probe returns. *)
Definition probe_result : Type := bool * string * string.

(** What an [except] clause of [check_pdf_exists] does; [failure] is the
    class of the failure as the message words it. *)
Definition retry_or_give_up (url : string) (max_retries retry_delay attempt : Z)
    (failure : string) : M (option probe_result) :=
  if attempt <? max_retries
  then time_sleep retry_delay ;;; ret None
  else ret (Some (false, url,
                  failure +:+ " (failed after " +:+ PyStr.of_int max_retries
                  +:+ " attempts)")).

(** The body of the [for attempt in ...] loop. *)
Definition attempt_body (url : string) (max_retries retry_delay attempt : Z)
    : M (option probe_result) :=
  try_except
    (response <- requests_head url ;;
     if status_code response =? 200 then
       let content_type :=
         PyStr.lower (headers_get (resp_headers response) "content-type" "") in
       if PyStr.contains "pdf" content_type
       then ret (Some (true, url, "PDF exists"))
       else ret (Some (false, url, "URL exists but not a PDF"))
     else
       ret (Some (false, url,
                  "HTTP Status: " +:+ PyStr.of_int (status_code response))))
    (retry_or_give_up url max_retries retry_delay attempt "Connection timeout")
    (retry_or_give_up url max_retries retry_delay attempt "Connection error")
    (fun e => retry_or_give_up url max_retries retry_delay attempt
                ("Request error: " +:+ exc_str e)).

(** [check_pdf_exists(email, event_code, max_retries, retry_delay)]. *)
Definition check_pdf_exists (email event_code : string)
    (max_retries retry_delay : Z) : M probe_result :=
  let email_filename := email_to_filename email in
  let url := certificate_url email_filename event_code in
  r <- for_in (range 1 (max_retries + 1))
              (attempt_body url max_retries retry_delay) ;;
  match r with
  | Some v => ret v
  | None => ret (false, url, "Unknown error")
  end.

(** A call that may leave out the two keyword arguments: the signature
    gives both the default 5. *)
Definition call_check_pdf_exists (email event_code : string)
    (max_retries retry_delay : option Z) : M probe_result :=
  check_pdf_exists email event_code (default 5 max_retries) (default 5 retry_delay).

(** *** The per-email loop and the summary of [process_event] *)

(** One element of [results]: [(email, exists, url, message)]. *)
Definition outcome_record : Type := string * bool * string * string.

(** [for idx, email in enumerate(emails, 1): ...], with [results] as the
    list the loop appends to.  [check_pdf_exists] is called with its two
    keyword arguments left out. *)
Fixpoint check_emails (event_code : string) (emails : list string)
    (results : list outcome_record) : M (list outcome_record) :=
  match emails with
  | [] => ret results
  | email :: rest =>
      if PyStr.is_empty email || negb (PyStr.contains_char "@" email)
      then check_emails event_code rest results
      else
        r <- call_check_pdf_exists email event_code None None ;;
        let '(exists_, url, message) := r in
        if exists_
        then check_emails event_code rest (results ++ [(email, true, url, message)])
        else check_emails event_code rest (results ++ [(email, false, url, message)])
  end.

(** [sum(...)] of Python: accumulation from 0, left to right. *)
Definition py_sum (xs : list Z) : Z := fold_left Z.add xs 0.

(** [total], [success] and [failed] as [process_event] computes them. *)
Definition summary (results : list outcome_record) : Z * Z * Z :=
  let total := Z.of_nat (length results) in
  let success :=
    py_sum (map (fun _ => 1)
                (List.filter (fun r : outcome_record => snd (fst (fst r))) results)) in
  let failed := total - success in
  (total, success, failed).

(** The loop followed by the summary: what [process_event] does with the
    list [emails] once it has read it. *)
Definition process_event_checks (event_code : string) (emails : list string)
    : M (list outcome_record * (Z * Z * Z)) :=
  results <- check_emails event_code emails [] ;;
  ret (results, summary results).

End Program.

(** ** Simulated endpoints and a fresh world *)

Definition w0 : world := mkWorld 0 [].

Definition response_with (status : Z) (content_type : string) : Response :=
  mkResponse status {[ "content-type" := content_type ]}.

Definition always (r : head_result) : nat -> string -> head_result :=
  fun _ _ => r.

Definition timeout_exc : RequestException :=
  mkRequestException true false "timed out".
Definition connection_exc : RequestException :=
  mkRequestException false true "connection refused".
Definition other_exc : RequestException :=
  mkRequestException false false "too many redirects".

(** ** The outcomes, named as the design names them

    Each is the tuple one [return] statement of [check_pdf_exists] builds. *)

Definition Confirmed (url : string) : probe_result :=
  (true, url, "PDF exists").

Definition WrongType (url : string) : probe_result :=
  (false, url, "URL exists but not a PDF").

Definition NotFound (url : string) (status : Z) : probe_result :=
  (false, url, "HTTP Status: " +:+ PyStr.of_int status).

(** The words the message has for the class of a transport failure: the
    first [except] clause that matches decides. *)
Definition failure_class (e : RequestException) : string :=
  if is_Timeout e then "Connection timeout"
  else if is_ConnectionError e then "Connection error"
  else "Request error: " +:+ exc_str e.

Definition TransportFailure (url : string) (e : RequestException) (attempts : Z)
    : probe_result :=
  (false, url,
   failure_class e +:+ " (failed after " +:+ PyStr.of_int attempts +:+ " attempts)").

Definition Fallback (url : string) : probe_result :=
  (false, url, "Unknown error").

(** The found flag of a probe result. *)
Definition found (r : probe_result) : bool := fst (fst r).

(** The media-type test of [check_pdf_exists], on a response. *)
Definition indicates_pdf (r : Response) : bool :=
  PyStr.contains "pdf"
    (PyStr.lower (headers_get (resp_headers r) "content-type" "")).

(** Success status as the design words it: any 2xx. *)
Definition is_2xx (status : Z) : bool := (200 <=? status) && (status <=? 299).

(** The address [check_pdf_exists] probes for an email and an event code. *)
Definition derive (email event_code : string) : string :=
  certificate_url (email_to_filename email) event_code.

(** The world after one more request, and after one more sleep. *)
Definition requested (url : string) (w : world) : world :=
  mkWorld (S (calls w)) (log w ++ [EvRequest url]).

Definition slept (seconds : Z) (w : world) : world :=
  mkWorld (calls w) (log w ++ [EvSleep seconds]).

(** The log of [k] failed attempts, each followed by its delay. *)
Fixpoint retry_log (url : string) (retry_delay : Z) (k : nat) : list event :=
  match k with
  | O => []
  | S k' => EvRequest url :: EvSleep retry_delay :: retry_log url retry_delay k'
  end.

(** What [check_pdf_exists] returns on a response that came back. *)
Definition classify (url : string) (r : Response) : probe_result :=
  if status_code r =? 200
  then if indicates_pdf r then Confirmed url else WrongType url
  else NotFound url (status_code r).

(** Of the probe started in world [w], the first [k] requests fail at the
    transport and the next one is answered with [resp]. *)
Definition answered_at (net : nat -> string -> head_result) (url : string)
    (w : world) (k : nat) (resp : Response) : Prop :=
  (forall j, (j < k)%nat -> exists e, net (calls w + j)%nat url = Failed e)
  /\ net (calls w + k)%nat url = Responded resp.

(** The world after [k] failed attempts, each followed by its delay, and
    one more request. *)
Definition after_answer (url : string) (retry_delay : Z) (k : nat) (w : world)
    : world :=
  mkWorld (calls w + S k) (log w ++ retry_log url retry_delay k ++ [EvRequest url]).

(** "pdf" occurs in the lower-cased content type of a response. *)
Definition pdf_occurs (resp : Response) : Prop :=
  exists pre post,
    PyStr.lower (headers_get (resp_headers resp) "content-type" "")
    = pre +:+ "pdf" +:+ post.

(** Validity of an entry as the design words it: not empty after trimming,
    and holding an "@". *)
Definition valid (email : string) : bool :=
  negb (PyStr.is_empty (PyStr.strip email)) && PyStr.contains_char "@" email.

(** The test of the loop that sends an entry to [continue]. *)
Definition skipped (email : string) : bool :=
  PyStr.is_empty email || negb (PyStr.contains_char "@" email).

Definition record_email (r : outcome_record) : string := fst (fst (fst r)).
Definition record_found (r : outcome_record) : bool := snd (fst (fst r)).
Definition record_url (r : outcome_record) : string := snd (fst r).
Definition record_message (r : outcome_record) : string := snd r.

(** The probe result a record was made from. *)
Definition record_outcome (r : outcome_record) : probe_result :=
  (record_found r, record_url r, record_message r).

(** A record is a Confirmed one: decided on the tuple. *)
Definition is_Confirmed (p : probe_result) : bool :=
  found p && String.eqb (snd p) "PDF exists".

(** What one record of the batch for [event_code] looks like. *)
Definition well_formed (event_code : string) (r : outcome_record) : Prop :=
  record_url r = derive (record_email r) event_code
  /\ (record_found r = true <-> is_Confirmed (record_outcome r) = true).

(** The world a computation ends in, whether it returns or raises. *)
Definition world_of {A} (r : res A) : world :=
  match r with
  | Ok _ w => w
  | Raise _ w => w
  end.

(** Seconds slept in a log. *)
Fixpoint slept_seconds (l : list event) : Z :=
  match l with
  | [] => 0
  | EvSleep d :: l' => d + slept_seconds l'
  | EvRequest _ :: l' => slept_seconds l'
  end.

(** ** Reading the emails of an event: the part of [process_event] before
    the loop

    The [csv] module and the file system are not modelled; what they hand to
    [process_event] is.  [Missing]: [os.path.exists] is false.
    [Unreadable]: opening, decoding, sniffing or parsing raised.
    [WithHeader]: the sniffer found a header; [csv.DictReader] gives the
    field names and one dictionary per row, in which a cell a short row
    lacks is [None].  [NoHeader]: [csv.reader] gives one list of cells per
    row, the empty list for a blank line. *)
Inductive csv_source : Type :=
| Missing
| Unreadable
| WithHeader (fieldnames : list string) (rows : list (gmap string (option string)))
| NoHeader (rows : list (list string)).

(** Exceptions the extraction can raise. *)
Inductive extraction_error : Type :=
| KeyError (key : string)
| AttributeError.

(** The search for the email column: the first field whose lower-cased
    name holds "email"; [None] when the loop ends without a [break]. *)
Fixpoint find_email_field (fieldnames : list string) : option string :=
  match fieldnames with
  | [] => None
  | field :: rest =>
      if PyStr.contains "email" (PyStr.lower field) then Some field
      else find_email_field rest
  end.

(** [[row[email_field] for row in reader if row[email_field].strip()]]:
    [row[email_field]] is a [KeyError] on a missing key, and [.strip()] an
    [AttributeError] on [None]. *)
Fixpoint emails_with_header (email_field : string)
    (rows : list (gmap string (option string)))
    : extraction_error + list string :=
  match rows with
  | [] => inr []
  | row :: rest =>
      match row !! email_field with
      | None => inl (KeyError email_field)
      | Some None => inl AttributeError
      | Some (Some value) =>
          if PyStr.is_empty (PyStr.strip value)
          then emails_with_header email_field rest
          else match emails_with_header email_field rest with
               | inl e => inl e
               | inr emails => inr (value :: emails)
               end
      end
  end.

(** The loop over the rows of a file without header: the second cell of a
    row that has more than one, the only cell of a row that has one,
    stripped; a row without cells gives nothing. *)
Fixpoint emails_without_header (rows : list (list string)) : list string :=
  match rows with
  | [] => []
  | row :: rest =>
      match row with
      | _ :: second :: _ => PyStr.strip second :: emails_without_header rest
      | [only] => PyStr.strip only :: emails_without_header rest
      | [] => emails_without_header rest
      end
  end.

(** How the reading part of [process_event] ends. *)
Inductive extraction : Type :=
| Emails (emails : list string)
| NoFile
| NoEmailColumn
| ReadFailed.

Definition extract_emails (source : csv_source) : extraction :=
  match source with
  | Missing => NoFile
  | Unreadable => ReadFailed
  | WithHeader fieldnames rows =>
      match find_email_field fieldnames with
      | None => NoEmailColumn
      | Some email_field =>
          match emails_with_header email_field rows with
          | inl _ => ReadFailed
          | inr emails => Emails emails
          end
      end
  | NoHeader rows => Emails (emails_without_header rows)
  end.

(** One line of the results file, as its five columns: email, file name,
    status, URL, message. *)
Definition log_row (r : outcome_record) : string * string * string * string * string :=
  let '(email, exists_, url, message) := r in
  (email, email_to_filename email +:+ ".pdf",
   if exists_ then "FOUND" else "MISSING", url, message).

(** What a run of [process_event] leaves: the value it returns and, when it
    gets to write the results file, the three numbers of its "Total" line
    and its rows. *)
Record event_run : Type := mkEventRun {
  returned : bool;
  results_file : option (Z * Z * Z * list (string * string * string * string * string))
}.

(** [process_event(event_code)], on what the file system and the [csv]
    module hand it.  Any exception inside the [try] is caught by
    [except Exception] and turned into [return False].  Printing and the
    writing of the two output files are taken to succeed; of the two files
    the results file is modelled, by its numbers and rows. *)
Definition process_event (net : nat -> string -> head_result)
    (source : csv_source) (event_code : string) : M event_run :=
  match extract_emails source with
  | NoFile | NoEmailColumn | ReadFailed => ret (mkEventRun false None)
  | Emails [] => ret (mkEventRun false None)
  | Emails emails =>
      fun w =>
        match process_event_checks net event_code emails w with
        | Ok (results, counts) w' =>
            Ok (mkEventRun true (Some (counts, map log_row results))) w'
        | Raise _ w' => Ok (mkEventRun false None) w'
        end
  end.

(** ** The menu of [main] *)

Definition event_codes : list string :=
  ["681ec43c"; "41236a8e"; "c08ca642"; "6cdac529";
   "7d311ab2"; "a9537b89"; "77e83039"; "fd0a971e"].

(** [str.isdigit] on one character below 256: the ten ASCII digits and the
    superscripts two, three and one. *)
Definition isdigit_char (c : ascii) : bool :=
  let n := N_of_ascii c in
  (((48 <=? n) && (n <=? 57)) || (n =? 178) || (n =? 179) || (n =? 185))%N.

Fixpoint all_digits (s : string) : bool :=
  match s with
  | EmptyString => true
  | String c s' => isdigit_char c && all_digits s'
  end.

(** [s.isdigit()]: at least one character, and only digits. *)
Definition isdigit (s : string) : bool :=
  negb (PyStr.is_empty s) && all_digits s.

(** The value [int] gives a character: decimal digits only, so none for a
    superscript. *)
Definition decimal_value (c : ascii) : option Z :=
  let n := N_of_ascii c in
  if ((48 <=? n) && (n <=? 57))%N then Some (Z.of_N n - 48) else None.

Fixpoint int_of_decimal (acc : Z) (s : string) : option Z :=
  match s with
  | EmptyString => Some acc
  | String c s' =>
      match decimal_value c with
      | Some d => int_of_decimal (10 * acc + d) s'
      | None => None
      end
  end.

(** [int(s)] for a string [s] that passed [s.isdigit()]; [None] is a
    [ValueError].  [max_str_digits] is the conversion limit of the
    interpreter, if it has one: a longer string is refused. *)
Definition int_of_digit_string (max_str_digits : option nat) (s : string)
    : option Z :=
  match max_str_digits with
  | Some limit =>
      if (limit <? String.length s)%nat then None else int_of_decimal 0 s
  | None => int_of_decimal 0 s
  end.

(** [l[i]] of Python: a negative index counts from the end; [None] is an
    [IndexError]. *)
Definition py_index {A} (l : list A) (i : Z) : option A :=
  if (0 <=? i) && (i <? Z.of_nat (length l)) then l !! Z.to_nat i
  else if (- Z.of_nat (length l) <=? i) && (i <? 0)
       then l !! Z.to_nat (Z.of_nat (length l) + i)
  else None.

Inductive menu_action : Type :=
| Exit
| CheckAll
| CheckOne (code : string)
| InvalidChoice.

(** Exceptions that end [main]: it catches none. *)
Inductive crash : Type :=
| IntValueError
| IndexError
| EOFError
| Uncaught (e : exn).

(** The [if]/[elif] chain of [main] on one line read from the user. *)
Definition choose (max_str_digits : option nat) (raw : string)
    : crash + menu_action :=
  let choice := PyStr.lower (PyStr.strip raw) in
  if String.eqb choice "0" then inr Exit
  else if String.eqb choice "a" then inr CheckAll
  else if isdigit choice then
    match int_of_digit_string max_str_digits choice with
    | None => inl IntValueError
    | Some n =>
        if (1 <=? n) && (n <=? Z.of_nat (length event_codes))
        then match py_index event_codes (n - 1) with
             | Some selected_code => inr (CheckOne selected_code)
             | None => inl IndexError
             end
        else inr InvalidChoice
    end
  else inr InvalidChoice.

(** [input(...)] on the lines still to be read: the end of the input is an
    [EOFError]. *)
Definition input (inputs : list string) : crash + (string * list string) :=
  match inputs with
  | [] => inl EOFError
  | line :: rest => inr (line, rest)
  end.

Inductive main_end : Type :=
| Goodbye
| Crashed (c : crash).

Section Main.

(** The interpreter's conversion limit, the remote end, and the CSV file
    of each event code, which the program reads and never writes. *)
Variable max_str_digits : option nat.
Variable net : nat -> string -> head_result.
Variable files : string -> csv_source.

(** [for code in codes: process_event(code); input(...)]: the loop of the
    choice "a" over [event_codes]; a numeric choice does the same for the
    one selected code. *)
Fixpoint check_all (codes : list string) (inputs : list string) (w : world)
    : crash * world + (list string * world) :=
  match codes with
  | [] => inr (inputs, w)
  | code :: codes' =>
      match process_event net (files code) code w with
      | Raise e w' => inl (Uncaught e, w')
      | Ok _ w' =>
          match input inputs with
          | inl c => inl (c, w')
          | inr (_, rest) => check_all codes' rest w'
          end
      end
  end.

(** The [while True] loop of [main]; [fuel] bounds the number of
    iterations and [None] says it ran out. *)
Fixpoint main_loop (fuel : nat) (inputs : list string) (w : world)
    : option (main_end * world) :=
  match fuel with
  | O => None
  | S fuel' =>
      match input inputs with
      | inl c => Some (Crashed c, w)
      | inr (raw, rest) =>
          match choose max_str_digits raw with
          | inl c => Some (Crashed c, w)
          | inr Exit => Some (Goodbye, w)
          | inr CheckAll =>
              match check_all event_codes rest w with
              | inl (c, w') => Some (Crashed c, w')
              | inr (rest', w') => main_loop fuel' rest' w'
              end
          | inr (CheckOne selected_code) =>
              match check_all [selected_code] rest w with
              | inl (c, w') => Some (Crashed c, w')
              | inr (rest', w') => main_loop fuel' rest' w'
              end
          | inr InvalidChoice =>
              match input rest with
              | inl c => Some (Crashed c, w)
              | inr (_, rest') => main_loop fuel' rest' w
              end
          end
      end
  end.

(** [main()] on the lines the user will type: every iteration reads at
    least one line, so one more iteration than there are lines is enough. *)
Definition main (inputs : list string) (w : world) : option (main_end * world) :=
  main_loop (S (length inputs)) inputs w.

End Main.

(** An event of the log that, if it is a request, is a request for the
    certificate of some entry under one of the listed event codes. *)
Definition listed_request (ev : event) : Prop :=
  is_request ev = true ->
  exists code email, In code event_codes /\ ev = EvRequest (derive email code).

(** ** Examples of the string operations *)

Example replace_ex : PyStr.replace "@" "_" "a@b@c.D" = "a_b_c.D".
Proof. reflexivity. Qed.

Example lower_ex : PyStr.lower "Application/PDF; X" = "application/pdf; x".
Proof. reflexivity. Qed.

Example strip_ex :
  PyStr.strip "  a b  " = "a b" /\ PyStr.strip "   " = "" /\ PyStr.strip "x" = "x".
Proof. repeat split; reflexivity. Qed.

Example of_int_ex :
  PyStr.of_int 404 = "404" /\ PyStr.of_int 0 = "0" /\ PyStr.of_int (-3) = "-3".
Proof. vm_compute. auto. Qed.

(** ** Facts about the string operations *)

Section StringFacts.

Lemma replace_length old new s :
  String.length (PyStr.replace old new s) = String.length s.
Proof. induction s as [|c s IH]; simpl; [reflexivity | now rewrite IH]. Qed.

Lemma replace_get old new s i :
  String.get i (PyStr.replace old new s)
  = option_map (fun c => if Ascii.eqb c old then new else c) (String.get i s).
Proof.
  revert i; induction s as [|c s IH]; intros i; simpl; [reflexivity |].
  destruct i as [|i]; simpl; [reflexivity | apply IH].
Qed.

Lemma contains_char_In c s :
  PyStr.contains_char c s = true <-> In c (list_ascii_of_string s).
Proof.
  induction s as [|d s IH]; simpl.
  - split; [discriminate | tauto].
  - rewrite orb_true_iff, IH, Ascii.eqb_eq. tauto.
Qed.

Lemma lstrip_empty_no_char c s :
  PyStr.isspace c = false -> PyStr.lstrip s = "" -> PyStr.contains_char c s = false.
Proof.
  intros Hc. induction s as [|d s IH]; simpl; [reflexivity |].
  destruct (PyStr.isspace d) eqn:Hd; [| discriminate].
  intros Hs. rewrite (IH Hs), orb_false_r.
  apply Ascii.eqb_neq. intros ->. congruence.
Qed.

Lemma rstrip_lstrip_empty s : PyStr.rstrip (PyStr.lstrip s) = "" -> PyStr.lstrip s = "".
Proof.
  induction s as [|d s IH]; simpl; [reflexivity |].
  destruct (PyStr.isspace d) eqn:Hd; [exact IH |].
  simpl. destruct (PyStr.rstrip s); [rewrite Hd |]; discriminate.
Qed.

(** A string that is empty after trimming holds no character that is not
    white space. *)
Lemma strip_empty_no_char c s :
  PyStr.isspace c = false -> PyStr.strip s = "" -> PyStr.contains_char c s = false.
Proof.
  intros Hc Hs. apply lstrip_empty_no_char; [exact Hc |].
  now apply rstrip_lstrip_empty.
Qed.

Lemma append_assoc (a b c : string) : (a +:+ b) +:+ c = a +:+ b +:+ c.
Proof.
  induction a as [|x a IH]; [reflexivity |].
  change (String x ((a +:+ b) +:+ c) = String x (a +:+ b +:+ c)).
  now rewrite IH.
Qed.

Lemma contains_char_nonempty c s :
  PyStr.contains_char c s = true -> PyStr.is_empty s = false.
Proof. destruct s; [discriminate | reflexivity]. Qed.

Lemma startswith_app p s : PyStr.startswith p (p +:+ s) = true.
Proof.
  induction p as [|a p IH]; simpl; [reflexivity |].
  now rewrite Ascii.eqb_refl, IH.
Qed.

Lemma startswith_inv p s :
  PyStr.startswith p s = true -> exists post, s = p +:+ post.
Proof.
  revert s; induction p as [|a p IH]; intros s; simpl.
  - intros _. now exists s.
  - destruct s as [|b s]; [discriminate |].
    rewrite andb_true_iff, Ascii.eqb_eq. intros [-> H].
    destruct (IH _ H) as [post ->]. now exists post.
Qed.

Lemma contains_startswith sub s :
  PyStr.startswith sub s = true -> PyStr.contains sub s = true.
Proof. intros H. destruct s; simpl in *; rewrite H; reflexivity. Qed.

(** [contains] decides occurrence as a contiguous substring. *)
Lemma contains_spec sub s :
  PyStr.contains sub s = true <-> exists pre post, s = pre +:+ sub +:+ post.
Proof.
  split.
  - induction s as [|c s IH]; simpl; rewrite orb_true_iff.
    + intros [H | H]; [| discriminate].
      destruct (startswith_inv _ _ H) as [post E]. now exists "", post.
    + intros [H | H].
      * destruct (startswith_inv _ _ H) as [post E]. now exists "", post.
      * destruct (IH H) as (pre & post & ->). now exists (String c pre), post.
  - intros (pre & post & ->). induction pre as [|c pre IH].
    + apply contains_startswith. exact (startswith_app sub post).
    + change (String c pre +:+ sub +:+ post)
        with (String c (pre +:+ sub +:+ post)).
      simpl. rewrite IH. apply orb_true_r.
Qed.

End StringFacts.

(** ** One attempt, and the loop over the attempts *)

Lemma requests_in_retry_log url d k : requests_in (retry_log url d k) = k.
Proof.
  unfold requests_in. induction k as [|k IH]; simpl; [reflexivity | now rewrite IH].
Qed.


Lemma requests_in_app l1 l2 :
  requests_in (l1 ++ l2) = (requests_in l1 + requests_in l2)%nat.
Proof. unfold requests_in. now rewrite List.filter_app, length_app. Qed.



Lemma seqZ_S_cons a n :
  seqZ a (Z.of_nat (S n)) = a :: seqZ (Z.succ a) (Z.of_nat n).
Proof. rewrite seqZ_cons by lia. f_equal. f_equal. lia. Qed.

Lemma sleep_refusal_none d :
  0 <= d <= sleep_max -> sleep_refusal d = None.
Proof.
  unfold sleep_refusal, sleep_max. intros H.
  destruct (d <? _) eqn:E1; [apply Z.ltb_lt in E1; lia |].
  destruct (_ <? d) eqn:E2; [apply Z.ltb_lt in E2; lia |].
  simpl. destruct (d <? 0) eqn:E3; [apply Z.ltb_lt in E3; lia | reflexivity].
Qed.

(** A delay is either one [time.sleep] takes, or one it refuses with an
    exception that is not an exception of [requests]. *)
Lemma sleep_refusal_cases d :
  (0 <= d <= sleep_max /\ sleep_refusal d = None)
  \/ (~ (0 <= d <= sleep_max)
      /\ exists e', sleep_refusal d = Some e' /\ forall r, e' <> RequestExn r).
Proof.
  unfold sleep_refusal, sleep_max.
  destruct (d <? _) eqn:E1; simpl.
  - apply Z.ltb_lt in E1. right. split; [lia |].
    eexists. split; [reflexivity | discriminate].
  - apply Z.ltb_ge in E1. destruct (_ <? d) eqn:E2.
    + apply Z.ltb_lt in E2. right. split; [lia |].
      eexists. split; [reflexivity | discriminate].
    + apply Z.ltb_ge in E2. destruct (d <? 0) eqn:E3.
      * apply Z.ltb_lt in E3. right. split; [lia |].
        eexists. split; [reflexivity | discriminate].
      * apply Z.ltb_ge in E3. left. split; [lia | reflexivity].
Qed.

Section ProbeFacts.

Variable net : nat -> string -> head_result.
Variable url : string.
Variables max_retries retry_delay : Z.

Let body := attempt_body net url max_retries retry_delay.

Lemma attempt_responded attempt w r :
  net (calls w) url = Responded r ->
  body attempt w = Ok (Some (classify url r)) (requested url w).
Proof.
  intros H. unfold body, attempt_body, try_except, bind, requests_head.
  rewrite H. unfold classify, indicates_pdf, Confirmed, WrongType, NotFound.
  destruct (status_code r =? 200); [| reflexivity].
  destruct (PyStr.contains _ _); reflexivity.
Qed.

Lemma attempt_failed_last attempt w e :
  net (calls w) url = Failed e -> ~ attempt < max_retries ->
  body attempt w = Ok (Some (TransportFailure url e max_retries)) (requested url w).
Proof.
  intros H Hlast. unfold body, attempt_body, try_except, bind, requests_head.
  rewrite H. unfold retry_or_give_up, TransportFailure, failure_class.
  destruct (Z.ltb_spec attempt max_retries) as [Hlt | _]; [contradiction |].
  destruct (is_Timeout e); [reflexivity |].
  destruct (is_ConnectionError e); reflexivity.
Qed.

Lemma attempt_failed_retry attempt w e :
  net (calls w) url = Failed e -> attempt < max_retries ->
  0 <= retry_delay <= sleep_max ->
  body attempt w = Ok None (slept retry_delay (requested url w)).
Proof.
  intros H Hlt Hd. unfold body, attempt_body, try_except, bind, requests_head.
  rewrite H. unfold retry_or_give_up, bind, time_sleep.
  destruct (Z.ltb_spec attempt max_retries) as [_ | Hge]; [| lia].
  rewrite (sleep_refusal_none retry_delay Hd).
  destruct (is_Timeout e); [reflexivity |].
  destruct (is_ConnectionError e); reflexivity.
Qed.

Lemma attempt_failed_bad_delay attempt w e e' :
  net (calls w) url = Failed e -> attempt < max_retries ->
  sleep_refusal retry_delay = Some e' ->
  body attempt w = Raise e' (requested url w).
Proof.
  intros H Hlt Hd. unfold body, attempt_body, try_except, bind, requests_head.
  rewrite H. unfold retry_or_give_up, bind, time_sleep.
  destruct (Z.ltb_spec attempt max_retries) as [_ | Hge]; [| lia].
  rewrite Hd.
  destruct (is_Timeout e); [reflexivity |].
  destruct (is_ConnectionError e); reflexivity.
Qed.

(** An attempt ends in one of three ways; none of them lets an exception
    of [requests] through. *)
Lemma attempt_cases attempt w :
  (exists v, body attempt w = Ok (Some v) (requested url w))
  \/ (attempt < max_retries /\ 0 <= retry_delay <= sleep_max
      /\ body attempt w = Ok None (slept retry_delay (requested url w)))
  \/ (attempt < max_retries /\ ~ (0 <= retry_delay <= sleep_max)
      /\ exists e', (forall r, e' <> RequestExn r)
                    /\ body attempt w = Raise e' (requested url w)).
Proof.
  destruct (net (calls w) url) as [r | e] eqn:H.
  - left. exists (classify url r). exact (attempt_responded attempt w r H).
  - destruct (Z.lt_ge_cases attempt max_retries) as [Hlt | Hge].
    + destruct (sleep_refusal_cases retry_delay)
        as [[Hok _] | (Hbad & e' & He' & Hne)].
      * right; left. repeat split; try tauto.
        exact (attempt_failed_retry attempt w e H Hlt Hok).
      * right; right. repeat split; try assumption.
        exists e'. split; [exact Hne |].
        exact (attempt_failed_bad_delay attempt w e e' H Hlt He').
    + left. eexists. apply (attempt_failed_last attempt w e H). lia.
Qed.

Lemma for_in_cons attempt rest w :
  for_in (attempt :: rest) body w
  = match body attempt w with
    | Ok (Some v) w' => Ok (Some v) w'
    | Ok None w' => for_in rest body w'
    | Raise e w' => Raise e w'
    end.
Proof.
  simpl. unfold bind. destruct (body attempt w) as [[v|] w' | e w']; reflexivity.
Qed.


(** A value returned from inside the loop is the classification of a
    response or a TransportFailure. *)
Lemma loop_returned_value n : forall a w v w',
  for_in (seqZ a (Z.of_nat n)) body w = Ok (Some v) w' ->
  (exists resp, v = classify url resp)
  \/ (exists e, v = TransportFailure url e max_retries).
Proof.
  induction n as [|n IH]; intros a w v w'; [discriminate |].
  rewrite seqZ_S_cons, for_in_cons.
  destruct (net (calls w) url) as [resp | e] eqn:H.
  - rewrite (attempt_responded a w resp H). intros E. injection E as <- _.
    left. now exists resp.
  - destruct (Z.lt_ge_cases a max_retries) as [Hlt | Hge].
    + destruct (sleep_refusal_cases retry_delay)
        as [[Hok _] | (_ & e' & He' & _)].
      * rewrite (attempt_failed_retry a w e H Hlt Hok). apply IH.
      * rewrite (attempt_failed_bad_delay a w e e' H Hlt He'). discriminate.
    + rewrite (attempt_failed_last a w e H) by lia. intros E. injection E as <- _.
      right. now exists e.
Qed.


(** The loop, when the delay is one [time.sleep] takes: it returns, and how. *)
Lemma loop_cases n : forall a w,
  a + Z.of_nat n = max_retries + 1 -> 0 <= retry_delay <= sleep_max ->
  exists o w', for_in (seqZ a (Z.of_nat n)) body w = Ok o w' /\
    match o with
    | None => n = O /\ w' = w
    | Some r =>
        exists k, (k < n)%nat
          /\ calls w' = (calls w + S k)%nat
          /\ log w' = (log w ++ retry_log url retry_delay k ++ [EvRequest url])%list
          /\ (forall j, (j < k)%nat -> exists e, net (calls w + j)%nat url = Failed e)
          /\ ((exists resp, net (calls w + k)%nat url = Responded resp
                            /\ r = classify url resp)
              \/ (exists e, S k = n /\ net (calls w + k)%nat url = Failed e
                            /\ r = TransportFailure url e max_retries))
    end.
Proof.
  induction n as [|n IH]; intros a w Ha Hd.
  - exists None, w. split; [reflexivity | split; reflexivity].
  - rewrite seqZ_S_cons, for_in_cons.
    destruct (net (calls w) url) as [resp | e] eqn:H.
    + rewrite (attempt_responded a w resp H).
      exists (Some (classify url resp)), (requested url w).
      split; [reflexivity |]. exists O. simpl.
      repeat split; [lia | lia | intros j Hj; lia |].
      left. exists resp. rewrite Nat.add_0_r. auto.
    + destruct (Z.lt_ge_cases a max_retries) as [Hlt | Hge].
      * rewrite (attempt_failed_retry a w e H Hlt Hd).
        destruct (IH (Z.succ a) (slept retry_delay (requested url w)))
          as (o & w' & -> & Ho); [lia | assumption |].
        exists o, w'. split; [reflexivity |].
        destruct o as [r |]; [| lia].
        destruct Ho as (k & Hk & Hcalls & Hlog & Hprev & Hlast).
        simpl in Hcalls, Hlog, Hprev, Hlast.
        exists (S k). repeat split.
        -- lia.
        -- lia.
        -- rewrite Hlog. simpl. now rewrite <- !app_assoc.
        -- intros [|j] Hj; [exists e; now rewrite Nat.add_0_r |].
           destruct (Hprev j) as [e' He']; [lia |].
           exists e'. now replace (calls w + S j)%nat with (S (calls w + j)) by lia.
        -- replace (calls w + S k)%nat with (S (calls w + k)) by lia.
           destruct Hlast as [(resp & ? & ?) | (e' & ? & ? & ?)].
           ++ left; eauto.
           ++ right; exists e'; repeat split; auto.
      * assert (n = O) by lia. subst n.
        rewrite (attempt_failed_last a w e H) by lia.
        exists (Some (TransportFailure url e max_retries)), (requested url w).
        split; [reflexivity |]. exists O. simpl.
        repeat split; [lia | lia | intros j Hj; lia |].
        right. exists e. rewrite Nat.add_0_r. auto.
Qed.

End ProbeFacts.

(** ** The probe as a whole *)

Lemma range_attempts max_retries :
  range 1 (max_retries + 1) = seqZ 1 (Z.of_nat (Z.to_nat max_retries)).
Proof.
  unfold range. replace (max_retries + 1 - 1) with max_retries by lia.
  destruct (Z.le_gt_cases 0 max_retries) as [H | H].
  - now rewrite Z2Nat.id.
  - rewrite !seqZ_nil by lia. reflexivity.
Qed.



Lemma found_classify url resp :
  found (classify url resp) = true <-> classify url resp = Confirmed url.
Proof.
  unfold classify, found.
  destruct (status_code resp =? 200); [destruct (indicates_pdf resp) |];
    unfold Confirmed, WrongType, NotFound; simpl; split; congruence.
Qed.

Lemma found_transport_failure url e n : found (TransportFailure url e n) = false.
Proof. reflexivity. Qed.

Section CheckFacts.

Variable net : nat -> string -> head_result.
Variables email event_code : string.
Variables max_retries retry_delay : Z.

Let url := derive email event_code.
Let loop := for_in (range 1 (max_retries + 1))
                   (attempt_body net url max_retries retry_delay).

Lemma check_unfold w :
  check_pdf_exists net email event_code max_retries retry_delay w
  = match loop w with
    | Ok (Some v) w' => Ok v w'
    | Ok None w' => Ok (Fallback url) w'
    | Raise e w' => Raise e w'
    end.
Proof.
  unfold check_pdf_exists, bind, loop, url, derive, Fallback, ret.
  destruct (for_in _ _ w) as [[v|] w' | e w']; reflexivity.
Qed.


Lemma check_no_attempt w :
  max_retries < 1 ->
  loop w = Ok None w
  /\ check_pdf_exists net email event_code max_retries retry_delay w
     = Ok (Fallback url) w.
Proof.
  intros H. assert (E : loop w = Ok None w).
  { unfold loop, range. rewrite seqZ_nil by lia. reflexivity. }
  split; [exact E |]. now rewrite check_unfold, E.
Qed.


Lemma loop_value_in_loop w v w' :
  loop w = Ok (Some v) w' ->
  (exists resp, v = classify url resp)
  \/ (exists e, v = TransportFailure url e max_retries).
Proof.
  unfold loop. rewrite range_attempts. apply loop_returned_value.
Qed.

(** With a delay [time.sleep] takes the probe returns, and the lemma says with what and
    after which requests and sleeps. *)
Lemma check_cases w :
  0 <= retry_delay <= sleep_max ->
  exists r w',
    check_pdf_exists net email event_code max_retries retry_delay w = Ok r w' /\
    ((max_retries < 1 /\ r = Fallback url /\ w' = w)
     \/ (1 <= max_retries /\ loop w = Ok (Some r) w' /\
         exists k, (Z.of_nat k < max_retries)
           /\ calls w' = (calls w + S k)%nat
           /\ log w' = (log w ++ retry_log url retry_delay k ++ [EvRequest url])%list
           /\ (forall j, (j < k)%nat ->
                 exists e, net (calls w + j)%nat url = Failed e)
           /\ ((exists resp, net (calls w + k)%nat url = Responded resp
                             /\ r = classify url resp)
               \/ (exists e, Z.of_nat (S k) = max_retries
                             /\ net (calls w + k)%nat url = Failed e
                             /\ r = TransportFailure url e max_retries)))).
Proof.
  intros Hd. destruct (Z.lt_ge_cases max_retries 1) as [Hlt | Hge].
  - exists (Fallback url), w. split; [now apply check_no_attempt |]. left. auto.
  - rewrite check_unfold. unfold loop. rewrite range_attempts.
    destruct (loop_cases net url max_retries retry_delay (Z.to_nat max_retries) 1 w)
      as (o & w' & E & Ho); [lia | assumption |].
    rewrite E. destruct o as [r |]; [| lia].
    exists r, w'. split; [reflexivity |]. right.
    split; [lia |]. split; [reflexivity |].
    destruct Ho as (k & Hk & Hcalls & Hlog & Hprev & Hlast).
    exists k. repeat split; try assumption; [lia |].
    destruct Hlast as [? | (e & ? & ? & ?)]; [now left |].
    right. exists e. repeat split; try assumption. lia.
Qed.

End CheckFacts.



(** A request is answered after [k] failed ones: the probe returns the
    classification of that answer, and the answered request is the last
    event of the probe.  The delay has to be one [time.sleep] takes only if the probe
    sleeps at all. *)
Lemma check_answered net email event_code max_retries retry_delay w k resp :
  Z.of_nat k < max_retries ->
  ((0 < k)%nat -> 0 <= retry_delay <= sleep_max) ->
  answered_at net (derive email event_code) w k resp ->
  check_pdf_exists net email event_code max_retries retry_delay w
  = Ok (classify (derive email event_code) resp)
       (after_answer (derive email event_code) retry_delay k w).
Proof.
  intros Hk Hd [Hprev Hans]. destruct k as [|k0].
  - rewrite Nat.add_0_r in Hans. rewrite check_unfold, range_attempts.
    destruct (Z.to_nat max_retries) as [|n] eqn:E; [lia |].
    rewrite seqZ_S_cons, for_in_cons.
    rewrite (attempt_responded net _ max_retries retry_delay 1 w resp Hans).
    unfold after_answer, requested. simpl. do 2 f_equal. lia.
  - assert (Hd' : 0 <= retry_delay <= sleep_max) by (apply Hd; lia).
    destruct (check_cases net email event_code max_retries retry_delay w Hd')
      as (r & w' & E & [(Hlt & _) | (_ & _ & k' & Hk' & Hcalls & Hlog & Hprev' & Hlast)]);
      [lia |].
    assert (k' = S k0) as ->.
    { destruct (Nat.lt_trichotomy k' (S k0)) as [Hlt | [Heq | Hgt]]; [| exact Heq |].
      - destruct (Hprev k' Hlt) as [e He].
        destruct Hlast as [(resp' & Hr & _) | (e' & HS & _)]; [congruence | lia].
      - destruct (Hprev' (S k0) Hgt) as [e He]. congruence. }
    rewrite E. f_equal.
    + destruct Hlast as [(resp' & Hr & ->) | (e' & _ & He' & _)]; congruence.
    + destruct w' as [c l]. simpl in Hcalls, Hlog. subst c l. reflexivity.
Qed.

Lemma is_2xx_200 : is_2xx 200 = true.
Proof. reflexivity. Qed.

Lemma not_2xx_not_200 status : is_2xx status = false -> status <> 200.
Proof. intros H ->. discriminate. Qed.

(** ** The address (claim C4) *)

(** C4.  For every identity and group, the derived address is the fixed host
    and path prefix, then "/", the group, "/", then the identity with every
    "@" replaced by "_" and every other character unchanged, then ".pdf";
    in particular the address derived from "A@b.com" ends with
    "A_b.com.pdf". *)
Theorem derive_template (email event_code : string) :
  derive email event_code
  = "https://bbpvpbekasi.kemnaker.go.id/bulanvokasi/sertifikatbv"
    +:+ "/" +:+ event_code +:+ "/" +:+ email_to_filename email +:+ ".pdf"
  /\ String.length (email_to_filename email) = String.length email
  /\ (forall i,
        String.get i (email_to_filename email)
        = option_map (fun c => if Ascii.eqb c "@" then "_"%char else c)
                     (String.get i email))
  /\ (exists pre, derive "A@b.com" event_code = pre +:+ "A_b.com.pdf").
Proof.
  split; [reflexivity |].
  split; [apply replace_length |].
  split; [intros i; apply replace_get |].
  exists ("https://bbpvpbekasi.kemnaker.go.id/bulanvokasi/sertifikatbv/"
          +:+ event_code +:+ "/").
  rewrite !append_assoc. reflexivity.
Qed.

Example derive_ex :
  derive "DellaRamadhanty26@gmail.com" "681ec43c"
  = "https://bbpvpbekasi.kemnaker.go.id/bulanvokasi/sertifikatbv/681ec43c/DellaRamadhanty26_gmail.com.pdf".
Proof. reflexivity. Qed.

(** ** Classification of a response (claims C1, C6, C7, C10) *)

(** C1, as stated, fails: a response with status 204 and a PDF content type
    has a 2xx status and PDF metadata, and the probe answers with the
    status diagnostic and the found flag false. *)
Lemma status_204_pdf_is_not_confirmed :
  is_2xx (status_code (response_with 204 "application/pdf")) = true
  /\ indicates_pdf (response_with 204 "application/pdf") = true
  /\ check_pdf_exists (always (Responded (response_with 204 "application/pdf")))
       "a@b.com" "G" 5 5 w0
     = Ok (NotFound (derive "a@b.com" "G") 204) (requested (derive "a@b.com" "G") w0)
  /\ found (NotFound (derive "a@b.com" "G") 204) = false
  /\ NotFound (derive "a@b.com" "G") 204 <> Confirmed (derive "a@b.com" "G").
Proof. vm_compute. repeat split; discriminate. Qed.

(** C1, amended.  When a request of a probe is answered with status 200
    exactly and the content type indicates a PDF, the probe returns the
    Confirmed outcome, found flag true, and the answered request is the last
    event of the probe: nothing is retried after it.  Answered at the first
    request, the probe has issued that single request and has not slept. *)
Theorem status_200_pdf_is_confirmed
    net email event_code max_retries retry_delay w k resp :
  Z.of_nat k < max_retries ->
  ((0 < k)%nat -> 0 <= retry_delay <= sleep_max) ->
  answered_at net (derive email event_code) w k resp ->
  status_code resp = 200 ->
  indicates_pdf resp = true ->
  check_pdf_exists net email event_code max_retries retry_delay w
  = Ok (Confirmed (derive email event_code))
       (after_answer (derive email event_code) retry_delay k w)
  /\ found (Confirmed (derive email event_code)) = true
  /\ (k = O ->
      log (after_answer (derive email event_code) retry_delay k w)
      = (log w ++ [EvRequest (derive email event_code)])%list).
Proof.
  intros Hk Hd Hans Hst Hpdf.
  rewrite (check_answered _ _ _ _ _ _ k resp Hk Hd Hans).
  unfold classify. rewrite Hst, Hpdf. simpl.
  split; [reflexivity |]. split; [reflexivity |]. intros ->. reflexivity.
Qed.

Lemma status_200_pdf_is_confirmed_witness :
  check_pdf_exists (always (Responded (response_with 200 "application/pdf")))
    "a@b.com" "G" 5 5 w0
  = Ok (Confirmed (derive "a@b.com" "G")) (after_answer (derive "a@b.com" "G") 5 0 w0)
  /\ found (Confirmed (derive "a@b.com" "G")) = true
  /\ (O = O ->
      log (after_answer (derive "a@b.com" "G") 5 0 w0)
      = (log w0 ++ [EvRequest (derive "a@b.com" "G")])%list).
Proof.
  apply (status_200_pdf_is_confirmed
           (always (Responded (response_with 200 "application/pdf")))
           "a@b.com" "G" 5 5 w0 0 (response_with 200 "application/pdf"));
    [lia | lia | split; [intros j Hj; lia | reflexivity] | reflexivity
    | vm_compute; reflexivity].
Defined.

(** C6, as stated, fails: a response with status 201 and an HTML content
    type has a 2xx status and no PDF metadata, and the probe answers with
    the status diagnostic, the one it also has for absence, not with the
    wrong-type diagnostic. *)
Lemma status_201_html_is_not_wrong_type :
  is_2xx (status_code (response_with 201 "text/html")) = true
  /\ indicates_pdf (response_with 201 "text/html") = false
  /\ check_pdf_exists (always (Responded (response_with 201 "text/html")))
       "a@b.com" "G" 5 5 w0
     = Ok (NotFound (derive "a@b.com" "G") 201) (requested (derive "a@b.com" "G") w0)
  /\ NotFound (derive "a@b.com" "G") 201 <> WrongType (derive "a@b.com" "G").
Proof. vm_compute. repeat split; discriminate. Qed.

(** C6, amended.  When a request of a probe is answered with status 200
    exactly and the content type does not indicate a PDF, the probe returns
    the WrongType outcome, found flag false and a diagnostic that is not a
    status diagnostic, and the answered request is the last event of the
    probe: nothing is retried after it.  Answered at the first request, the
    probe has issued that single request and has not slept. *)
Theorem status_200_not_pdf_is_wrong_type
    net email event_code max_retries retry_delay w k resp :
  Z.of_nat k < max_retries ->
  ((0 < k)%nat -> 0 <= retry_delay <= sleep_max) ->
  answered_at net (derive email event_code) w k resp ->
  status_code resp = 200 ->
  indicates_pdf resp = false ->
  check_pdf_exists net email event_code max_retries retry_delay w
  = Ok (WrongType (derive email event_code))
       (after_answer (derive email event_code) retry_delay k w)
  /\ found (WrongType (derive email event_code)) = false
  /\ (forall status,
        WrongType (derive email event_code) <> NotFound (derive email event_code) status)
  /\ (k = O ->
      log (after_answer (derive email event_code) retry_delay k w)
      = (log w ++ [EvRequest (derive email event_code)])%list).
Proof.
  intros Hk Hd Hans Hst Hpdf.
  rewrite (check_answered _ _ _ _ _ _ k resp Hk Hd Hans).
  unfold classify. rewrite Hst, Hpdf. simpl.
  split; [reflexivity |]. split; [reflexivity |]. split.
  - intros status H. inversion H.
  - intros ->. reflexivity.
Qed.

Lemma status_200_not_pdf_is_wrong_type_witness :
  check_pdf_exists (always (Responded (response_with 200 "text/html")))
    "a@b.com" "G" 5 5 w0
  = Ok (WrongType (derive "a@b.com" "G")) (after_answer (derive "a@b.com" "G") 5 0 w0)
  /\ found (WrongType (derive "a@b.com" "G")) = false
  /\ (forall status,
        WrongType (derive "a@b.com" "G") <> NotFound (derive "a@b.com" "G") status)
  /\ (O = O ->
      log (after_answer (derive "a@b.com" "G") 5 0 w0)
      = (log w0 ++ [EvRequest (derive "a@b.com" "G")])%list).
Proof.
  apply (status_200_not_pdf_is_wrong_type
           (always (Responded (response_with 200 "text/html")))
           "a@b.com" "G" 5 5 w0 0 (response_with 200 "text/html"));
    [lia | lia | split; [intros j Hj; lia | reflexivity] | reflexivity
    | vm_compute; reflexivity].
Defined.

(** Any status other than 200 is answered with the status diagnostic. *)
Lemma status_not_200_is_not_found
    net email event_code max_retries retry_delay w k resp :
  Z.of_nat k < max_retries ->
  ((0 < k)%nat -> 0 <= retry_delay <= sleep_max) ->
  answered_at net (derive email event_code) w k resp ->
  status_code resp <> 200 ->
  check_pdf_exists net email event_code max_retries retry_delay w
  = Ok (NotFound (derive email event_code) (status_code resp))
       (after_answer (derive email event_code) retry_delay k w).
Proof.
  intros Hk Hd Hans Hst.
  rewrite (check_answered _ _ _ _ _ _ k resp Hk Hd Hans).
  unfold classify. destruct (Z.eqb_spec (status_code resp) 200); [contradiction |].
  reflexivity.
Qed.

(** C7.  When a request of a probe is answered with a status that is not a
    success status (404, say), the probe returns the NotFound outcome: found
    flag false and a diagnostic that reports the status; the answered
    request is the last event of the probe, so nothing is retried after it.
    Answered at the first request, the probe has issued that single request
    and has not slept. *)
Theorem non_success_status_is_not_found
    net email event_code max_retries retry_delay w k resp :
  Z.of_nat k < max_retries ->
  ((0 < k)%nat -> 0 <= retry_delay <= sleep_max) ->
  answered_at net (derive email event_code) w k resp ->
  is_2xx (status_code resp) = false ->
  check_pdf_exists net email event_code max_retries retry_delay w
  = Ok (NotFound (derive email event_code) (status_code resp))
       (after_answer (derive email event_code) retry_delay k w)
  /\ found (NotFound (derive email event_code) (status_code resp)) = false
  /\ snd (NotFound (derive email event_code) (status_code resp))
     = "HTTP Status: " +:+ PyStr.of_int (status_code resp)
  /\ (k = O ->
      log (after_answer (derive email event_code) retry_delay k w)
      = (log w ++ [EvRequest (derive email event_code)])%list).
Proof.
  intros Hk Hd Hans Hst. split; [| split; [reflexivity | split; [reflexivity |]]].
  - apply status_not_200_is_not_found; try assumption.
    now apply not_2xx_not_200.
  - intros ->. reflexivity.
Qed.

Lemma non_success_status_is_not_found_witness :
  check_pdf_exists (always (Responded (response_with 404 "text/html")))
    "a@b.com" "G" 5 5 w0
  = Ok (NotFound (derive "a@b.com" "G") 404) (after_answer (derive "a@b.com" "G") 5 0 w0)
  /\ found (NotFound (derive "a@b.com" "G") 404) = false
  /\ snd (NotFound (derive "a@b.com" "G") 404) = "HTTP Status: " +:+ PyStr.of_int 404
  /\ (O = O ->
      log (after_answer (derive "a@b.com" "G") 5 0 w0)
      = (log w0 ++ [EvRequest (derive "a@b.com" "G")])%list).
Proof.
  apply (non_success_status_is_not_found
           (always (Responded (response_with 404 "text/html")))
           "a@b.com" "G" 5 5 w0 0 (response_with 404 "text/html"));
    [lia | lia | split; [intros j Hj; lia | reflexivity] | reflexivity].
Defined.

Example status_404_message :
  snd (NotFound (derive "a@b.com" "G") 404) = "HTTP Status: 404".
Proof. vm_compute. reflexivity. Qed.

(** A 404 that comes after one timeout: one delay before the answer, nothing
    after it. *)
Example status_404_after_timeout :
  check_pdf_exists
    (fun k _ => match k with
                | O => Failed timeout_exc
                | _ => Responded (response_with 404 "text/html")
                end)
    "a@b.com" "G" 5 5 w0
  = Ok (false, derive "a@b.com" "G", "HTTP Status: 404")
       (mkWorld 2
          [EvRequest (derive "a@b.com" "G"); EvSleep 5; EvRequest (derive "a@b.com" "G")]).
Proof. vm_compute. reflexivity. Qed.

Lemma indicates_pdf_occurs resp : indicates_pdf resp = true <-> pdf_occurs resp.
Proof. apply contains_spec. Qed.

Lemma no_content_type_no_pdf resp :
  resp_headers resp !! "content-type" = None -> indicates_pdf resp = false.
Proof.
  intros H. unfold indicates_pdf, headers_get.
  change (PyStr.lower "content-type") with "content-type".
  rewrite H. reflexivity.
Qed.

(** C10, as stated, fails: a response with status 204, a success status,
    whose content type is "Application/PDF" has "pdf" in the lower-cased
    header value, and the probe does not answer Confirmed. *)
Lemma status_204_pdf_occurs_not_confirmed :
  is_2xx (status_code (response_with 204 "Application/PDF")) = true
  /\ pdf_occurs (response_with 204 "Application/PDF")
  /\ check_pdf_exists (always (Responded (response_with 204 "Application/PDF")))
       "c@d.org" "G" 5 5 w0
     = Ok (NotFound (derive "c@d.org" "G") 204) (requested (derive "c@d.org" "G") w0)
  /\ NotFound (derive "c@d.org" "G") 204 <> Confirmed (derive "c@d.org" "G").
Proof.
  split; [reflexivity |]. split; [| vm_compute; split; [reflexivity | discriminate]].
  exists "application/", "". reflexivity.
Qed.

(** C10, amended.  The media-type check is a case-insensitive substring
    test on a response with status 200: the probe answers Confirmed if and
    only if "pdf" occurs in the lower-cased content-type header value, and
    WrongType otherwise; a status-200 response with no content-type header
    is read as having the empty media type and is answered WrongType. *)
Theorem media_type_check net email event_code max_retries retry_delay w k resp :
  Z.of_nat k < max_retries ->
  ((0 < k)%nat -> 0 <= retry_delay <= sleep_max) ->
  answered_at net (derive email event_code) w k resp ->
  status_code resp = 200 ->
  exists r,
    check_pdf_exists net email event_code max_retries retry_delay w
    = Ok r (after_answer (derive email event_code) retry_delay k w)
    /\ (r = Confirmed (derive email event_code) <-> pdf_occurs resp)
    /\ (r = WrongType (derive email event_code) <-> ~ pdf_occurs resp)
    /\ (resp_headers resp !! "content-type" = None ->
        headers_get (resp_headers resp) "content-type" "" = ""
        /\ r = WrongType (derive email event_code)).
Proof.
  intros Hk Hd Hans Hst.
  rewrite (check_answered _ _ _ _ _ _ k resp Hk Hd Hans).
  eexists; split; [reflexivity |].
  unfold classify. rewrite Hst. simpl.
  rewrite <- indicates_pdf_occurs.
  split; [| split].
  - destruct (indicates_pdf resp); split; intros H; try reflexivity;
      try discriminate; inversion H.
  - destruct (indicates_pdf resp); split; intros H; try reflexivity;
      try congruence; inversion H.
  - intros Hnone. rewrite (no_content_type_no_pdf resp Hnone). split; [| reflexivity].
    unfold headers_get. change (PyStr.lower "content-type") with "content-type".
    now rewrite Hnone.
Qed.

Lemma media_type_check_witness :
  exists r,
    check_pdf_exists (always (Responded (mkResponse 200 ∅))) "a@b.com" "G" 5 5 w0
    = Ok r (after_answer (derive "a@b.com" "G") 5 0 w0)
    /\ (r = Confirmed (derive "a@b.com" "G") <-> pdf_occurs (mkResponse 200 ∅))
    /\ (r = WrongType (derive "a@b.com" "G") <-> ~ pdf_occurs (mkResponse 200 ∅))
    /\ (resp_headers (mkResponse 200 ∅) !! "content-type" = None ->
        headers_get (resp_headers (mkResponse 200 ∅)) "content-type" "" = ""
        /\ r = WrongType (derive "a@b.com" "G")).
Proof.
  apply (media_type_check (always (Responded (mkResponse 200 ∅)))
           "a@b.com" "G" 5 5 w0 0 (mkResponse 200 ∅));
    [lia | lia | split; [intros j Hj; lia | reflexivity] | reflexivity].
Defined.

Example media_type_upper_case :
  indicates_pdf (response_with 200 "APPLICATION/X-PDF; charset=binary") = true
  /\ indicates_pdf (response_with 200 "application/octet-stream") = false.
Proof. vm_compute. auto. Qed.

(** ** Retries (claims C2, C3, C9) *)




Example always_timeout_defaults :
  call_check_pdf_exists (always (Failed timeout_exc)) "a@b.com" "G" None None w0
  = Ok (false, derive "a@b.com" "G", "Connection timeout (failed after 5 attempts)")
       (mkWorld 5
          (retry_log (derive "a@b.com" "G") 5 4 ++ [EvRequest (derive "a@b.com" "G")])).
Proof. vm_compute. reflexivity. Qed.

Example mixed_failures :
  check_pdf_exists
    (fun k _ => match k with
                | O => Failed connection_exc
                | _ => Failed other_exc
                end)
    "a@b.com" "G" 2 0 w0
  = Ok (false, derive "a@b.com" "G",
        "Request error: too many redirects (failed after 2 attempts)")
       (mkWorld 2
          [EvRequest (derive "a@b.com" "G"); EvSleep 0; EvRequest (derive "a@b.com" "G")]).
Proof. vm_compute. reflexivity. Qed.

(** A negative delay is not a valid one: the first sleep raises, and the
    exception is not one the probe catches. *)
Example negative_delay_raises :
  check_pdf_exists (always (Failed timeout_exc)) "a@b.com" "G" 2 (-1) w0
  = Raise (ValueError "sleep length must be non-negative")
          (requested (derive "a@b.com" "G") w0).
Proof. vm_compute. reflexivity. Qed.

Example oversized_delay_raises :
  check_pdf_exists (always (Failed timeout_exc)) "a@b.com" "G" 2 10000000000 w0
  = Raise OverflowError (requested (derive "a@b.com" "G") w0)
  /\ check_pdf_exists (always (Failed timeout_exc)) "a@b.com" "G" 2 (- 10000000000) w0
     = Raise OverflowError (requested (derive "a@b.com" "G") w0)
  /\ sleep_refusal sleep_max = None
  /\ sleep_refusal (sleep_max + 1) = Some OverflowError
  /\ sleep_refusal (- sleep_max)
     = Some (ValueError "sleep length must be non-negative").
Proof. vm_compute. repeat split; reflexivity. Qed.






(** ** The batch (claims C5, C8) *)

Lemma is_Confirmed_spec p :
  is_Confirmed p = true <-> p = Confirmed (snd (fst p)).
Proof.
  destruct p as [[b u] m]. unfold is_Confirmed, Confirmed, found. simpl.
  rewrite andb_true_iff, String.eqb_eq. split.
  - intros [-> ->]. reflexivity.
  - intros H. injection H as -> ->. auto.
Qed.

Lemma is_empty_spec s : PyStr.is_empty s = true <-> s = "".
Proof. destruct s; simpl; split; congruence. Qed.

(** The loop skips exactly the entries that are not valid. *)
Lemma skipped_not_valid email : skipped email = negb (valid email).
Proof.
  unfold skipped, valid.
  destruct (PyStr.contains_char "@" email) eqn:Hat.
  - rewrite (contains_char_nonempty _ _ Hat). simpl.
    destruct (PyStr.is_empty (PyStr.strip email)) eqn:Hs; [| reflexivity].
    apply is_empty_spec in Hs.
    rewrite (strip_empty_no_char "@" email eq_refl Hs) in Hat. discriminate.
  - now rewrite andb_false_r, orb_true_r.
Qed.

Lemma valid_spec email :
  valid email = true <-> PyStr.strip email <> "" /\ PyStr.contains_char "@" email = true.
Proof.
  unfold valid. rewrite andb_true_iff, negb_true_iff.
  rewrite <- is_empty_spec. destruct (PyStr.is_empty (PyStr.strip email));
    intuition congruence.
Qed.

Lemma py_sum_ones {A} (l : list A) :
  py_sum (map (fun _ => 1) l) = Z.of_nat (length l).
Proof.
  unfold py_sum. enough (H : forall acc, fold_left Z.add (map (fun _ => 1) l) acc
                                          = acc + Z.of_nat (length l))
    by (rewrite H; lia).
  induction l as [|x l IH]; intros acc; simpl length; simpl fold_left.
  - lia.
  - rewrite IH. lia.
Qed.

Lemma retry_log_requests url d k u :
  In (EvRequest u) (retry_log url d k ++ [EvRequest url])%list -> u = url.
Proof.
  induction k as [|k IH]; simpl.
  - intros [H | []]. congruence.
  - intros [H | [H | H]]; [congruence | discriminate | auto].
Qed.

Section BatchFacts.

Variable net : nat -> string -> head_result.
Variable event_code : string.

(** A probe with the default policy: it returns, its requests are all for
    the address of the email and there is at least one, and its found flag
    is true for the Confirmed outcome only. *)
Lemma default_probe email w :
  exists r w' new,
    call_check_pdf_exists net email event_code None None w = Ok r w'
    /\ log w' = (log w ++ new)%list
    /\ In (EvRequest (derive email event_code)) new
    /\ (forall u, In (EvRequest u) new -> u = derive email event_code)
    /\ snd (fst r) = derive email event_code
    /\ (found r = true <-> r = Confirmed (derive email event_code)).
Proof.
  unfold call_check_pdf_exists. simpl.
  destruct (check_cases net email event_code 5 5 w)
    as (r & w' & E & [(Hlt & _) | (_ & _ & k & _ & _ & Hlog & _ & Hlast)]);
    [unfold sleep_max; lia | lia |].
  exists r, w', (retry_log (derive email event_code) 5 k
                 ++ [EvRequest (derive email event_code)])%list.
  split; [exact E |]. split; [exact Hlog |].
  split; [apply in_or_app; right; now left |].
  split; [intros u; apply retry_log_requests |].
  destruct Hlast as [(resp & _ & ->) | (e & _ & _ & ->)].
  - split; [| apply found_classify].
    unfold classify. destruct (_ =? _); [destruct (indicates_pdf _) |]; reflexivity.
  - split; [reflexivity |]. rewrite found_transport_failure.
    split; [discriminate |]. intros H. inversion H.
Qed.

Lemma check_emails_cons email rest acc w :
  check_emails net event_code (email :: rest) acc w
  = if skipped email then check_emails net event_code rest acc w
    else match call_check_pdf_exists net email event_code None None w with
         | Ok r w' =>
             check_emails net event_code rest
               (acc ++ [(email, found r, snd (fst r), snd r)]) w'
         | Raise e w' => Raise e w'
         end.
Proof.
  simpl. fold (skipped email). destruct (skipped email); [reflexivity |].
  unfold bind.
  destruct (call_check_pdf_exists net email event_code None None w)
    as [[[b u] m] w' | e w']; [| reflexivity].
  destruct b; reflexivity.
Qed.

Lemma check_emails_spec emails : forall acc w,
  exists rs w' new,
    check_emails net event_code emails acc w = Ok (acc ++ rs)%list w'
    /\ log w' = (log w ++ new)%list
    /\ map record_email rs = List.filter valid emails
    /\ Forall (well_formed event_code) rs
    /\ (forall u, In (EvRequest u) new ->
          exists e, In e emails /\ valid e = true /\ u = derive e event_code)
    /\ (forall e, In e emails -> valid e = true ->
          In (EvRequest (derive e event_code)) new).
Proof.
  induction emails as [|email rest IH]; intros acc w.
  - exists [], w, []. simpl. rewrite !app_nil_r.
    repeat split; try constructor; intros; contradiction.
  - rewrite check_emails_cons, skipped_not_valid.
    destruct (valid email) eqn:Hv; simpl negb; cbv iota.
    + destruct (default_probe email w)
        as (r & w1 & new1 & -> & Hlog1 & Hin1 & Hall1 & Hurl & Hfound).
      destruct (IH (acc ++ [(email, found r, snd (fst r), snd r)])%list w1)
        as (rs & w' & new & -> & Hlog & Hmap & Hwf & Hreq & Hprobed).
      exists ((email, found r, snd (fst r), snd r) :: rs), w', (new1 ++ new)%list.
      split; [now rewrite <- app_assoc |].
      split; [rewrite Hlog, Hlog1; now rewrite app_assoc |].
      split; [simpl; rewrite Hv, Hmap; reflexivity |].
      split; [constructor; [| exact Hwf] |].
      { split; [exact Hurl |]. unfold record_found, record_outcome. simpl.
        rewrite is_Confirmed_spec. simpl. rewrite Hurl.
        destruct r as [[b u] m]. simpl in *. subst u.
        unfold record_url, record_message. simpl. exact Hfound. }
      split.
      * intros u Hu. apply in_app_or in Hu as [Hu | Hu].
        -- exists email. split; [now left |]. split; [exact Hv | now apply Hall1].
        -- destruct (Hreq u Hu) as (e & He & Hve & ->).
           exists e. split; [now right | auto].
      * intros e [<- | He] Hve; apply in_or_app; [now left | right; auto].
    + destruct (IH acc w) as (rs & w' & new & -> & Hlog & Hmap & Hwf & Hreq & Hprobed).
      exists rs, w', new. split; [reflexivity |]. split; [exact Hlog |].
      split; [simpl; now rewrite Hv |]. split; [exact Hwf |]. split.
      * intros u Hu. destruct (Hreq u Hu) as (e & He & Hve & ->).
        exists e. split; [now right | auto].
      * intros e [<- | He] Hve; [congruence | auto].
Qed.

(** Entries that are not valid can be deleted from the input: the run is
    the same, results and world. *)
Lemma check_emails_filter emails : forall acc w,
  check_emails net event_code emails acc w
  = check_emails net event_code (List.filter valid emails) acc w.
Proof.
  induction emails as [|email rest IH]; intros acc w; [reflexivity |].
  rewrite check_emails_cons, skipped_not_valid. simpl List.filter.
  destruct (valid email) eqn:Hv; simpl negb; cbv iota.
  - rewrite check_emails_cons, skipped_not_valid, Hv. simpl negb. cbv iota.
    destruct (call_check_pdf_exists net email event_code None None w);
      [apply IH | reflexivity].
  - apply IH.
Qed.

End BatchFacts.

(** C5.  For every input sequence: an entry that is empty after trimming or
    has no "@" yields no record and no request, and deleting such entries
    from the input leaves the run unchanged; the records are those of the
    valid entries, in input order, and every valid entry is probed at its
    derived address. *)
Theorem invalid_entries_are_excluded net event_code emails w :
  exists results w' new,
    check_emails net event_code emails [] w = Ok results w'
    /\ log w' = (log w ++ new)%list
    /\ map record_email results = List.filter valid emails
    /\ (forall e, In e emails ->
          (PyStr.strip e = "" \/ PyStr.contains_char "@" e = false) ->
          ~ In e (map record_email results))
    /\ (forall u, In (EvRequest u) new ->
          exists e, In e emails /\ valid e = true /\ u = derive e event_code)
    /\ check_emails net event_code emails [] w
       = check_emails net event_code (List.filter valid emails) [] w
    /\ (forall e, In e emails ->
          PyStr.strip e <> "" -> PyStr.contains_char "@" e = true ->
          In e (map record_email results)
          /\ In (EvRequest (derive e event_code)) new).
Proof.
  destruct (check_emails_spec net event_code emails [] w)
    as (rs & w' & new & E & Hlog & Hmap & _ & Hreq & Hprobed).
  exists rs, w', new. simpl in E.
  split; [exact E |]. split; [exact Hlog |]. split; [exact Hmap |].
  split; [| split; [exact Hreq | split; [apply check_emails_filter |]]].
  - intros e _ Hbad Hin. rewrite Hmap in Hin.
    apply List.filter_In in Hin as [_ Hv]. apply valid_spec in Hv as [Hs Hat].
    destruct Hbad; congruence.
  - intros e He Hs Hat. assert (Hv : valid e = true) by (apply valid_spec; auto).
    split; [| now apply Hprobed].
    rewrite Hmap. apply List.filter_In. auto.
Qed.

Example skipped_entries :
  map valid ["a@x.com"; "bad"; ""; "   "; " @ "; "b@x.com"]
  = [true; false; false; false; true; true].
Proof. vm_compute. reflexivity. Qed.

(** The summary of any list of records: its length, the number of records
    with a true found flag, and the difference. *)
Lemma summary_counts (results : list outcome_record) :
  summary results
  = (Z.of_nat (length results),
     Z.of_nat (length (List.filter record_found results)),
     Z.of_nat (length results) - Z.of_nat (length (List.filter record_found results))).
Proof.
  unfold summary. rewrite py_sum_ones. reflexivity.
Qed.

Lemma filter_ext_Forall {A} (f g : A -> bool) (P : A -> Prop) (l : list A) :
  Forall P l -> (forall x, P x -> f x = g x) -> List.filter f l = List.filter g l.
Proof.
  intros HP Hfg. induction HP as [|x l Hx _ IH]; simpl; [reflexivity |].
  now rewrite (Hfg x Hx), IH.
Qed.

(** C8.  For every batch the summary is computed from the produced records
    alone: total is their number, found is the number of Confirmed records,
    missing is total minus found.  For the input "a@x.com", "bad",
    "b@x.com" there are two records, for a@x.com then b@x.com, and total
    is 2. *)
Theorem summary_is_a_fold net event_code w :
  (forall emails,
     exists results w',
       process_event_checks net event_code emails w = Ok (results, summary results) w'
       /\ check_emails net event_code emails [] w = Ok results w'
       /\ summary results
          = (Z.of_nat (length results),
             Z.of_nat (length (List.filter
                                 (fun r => is_Confirmed (record_outcome r)) results)),
             Z.of_nat (length results)
             - Z.of_nat (length (List.filter
                                   (fun r => is_Confirmed (record_outcome r)) results))))
  /\ (exists results w',
        process_event_checks net event_code ["a@x.com"; "bad"; "b@x.com"] w
        = Ok (results, summary results) w'
        /\ length results = 2%nat
        /\ map record_email results = ["a@x.com"; "b@x.com"]
        /\ fst (fst (summary results)) = 2).
Proof.
  assert (Hrun : forall emails,
            exists results w',
              process_event_checks net event_code emails w
              = Ok (results, summary results) w'
              /\ check_emails net event_code emails [] w = Ok results w'
              /\ map record_email results = List.filter valid emails
              /\ Forall (well_formed event_code) results).
  { intros emails.
    destruct (check_emails_spec net event_code emails [] w)
      as (rs & w' & new & E & _ & Hmap & Hwf & _).
    simpl in E. exists rs, w'. unfold process_event_checks, bind, ret.
    rewrite E. auto. }
  split.
  - intros emails. destruct (Hrun emails) as (rs & w' & E & Eloop & _ & Hwf).
    exists rs, w'. split; [exact E |]. split; [exact Eloop |].
    rewrite summary_counts.
    rewrite (filter_ext_Forall record_found
               (fun r => is_Confirmed (record_outcome r)) _ rs Hwf);
      [reflexivity |].
    intros r [_ Hr]. destruct (record_found r), (is_Confirmed (record_outcome r));
      try reflexivity; intuition congruence.
  - destruct (Hrun ["a@x.com"; "bad"; "b@x.com"]) as (rs & w' & E & _ & Hmap & _).
    exists rs, w'. split; [exact E |].
    assert (Hlen : length rs = 2%nat).
    { rewrite <- (length_map record_email), Hmap. reflexivity. }
    split; [exact Hlen |]. split; [exact Hmap |].
    rewrite summary_counts. simpl. now rewrite Hlen.
Qed.

Example batch_of_three :
  process_event_checks
    (fun k _ => match k with
                | O => Responded (response_with 200 "application/pdf")
                | _ => Responded (response_with 404 "text/html")
                end)
    "681ec43c" ["a@x.com"; "bad"; "b@x.com"] w0
  = Ok ([("a@x.com", true, derive "a@x.com" "681ec43c", "PDF exists");
         ("b@x.com", false, derive "b@x.com" "681ec43c", "HTTP Status: 404")],
        (2, 1, 1))
       (mkWorld 2 [EvRequest (derive "a@x.com" "681ec43c");
                   EvRequest (derive "b@x.com" "681ec43c")]).
Proof. vm_compute. reflexivity. Qed.

(** ** Further properties of the address *)

Lemma replace_append old new a b :
  PyStr.replace old new (a +:+ b)
  = PyStr.replace old new a +:+ PyStr.replace old new b.
Proof.
  induction a as [|c a IH]; [reflexivity |].
  change (String c a +:+ b) with (String c (a +:+ b)).
  simpl PyStr.replace. rewrite IH. reflexivity.
Qed.

Lemma length_append a b :
  String.length (a +:+ b) = (String.length a + String.length b)%nat.
Proof.
  induction a as [|c a IH]; [reflexivity |].
  change (String c a +:+ b) with (String c (a +:+ b)). simpl. now rewrite IH.
Qed.

Lemma append_cancel_l a b c : a +:+ b = a +:+ c -> b = c.
Proof.
  induction a as [|x a IH]; [trivial |].
  change (String x (a +:+ b) = String x (a +:+ c) -> b = c).
  intros H. injection H as H. auto.
Qed.

Lemma append_cancel_r a b c : a +:+ c = b +:+ c -> a = b.
Proof.
  revert b. induction a as [|x a IH]; intros [|y b] H.
  - reflexivity.
  - apply (f_equal String.length) in H. rewrite !length_append in H.
    simpl in H. lia.
  - apply (f_equal String.length) in H. rewrite !length_append in H.
    simpl in H. lia.
  - change (String x (a +:+ c) = String y (b +:+ c)) in H.
    injection H as -> H. f_equal. auto.
Qed.

(** X1.  A converted name holds no "@". *)
Theorem email_to_filename_has_no_at (email : string) :
  PyStr.contains_char "@" (email_to_filename email) = false.
Proof.
  unfold email_to_filename. induction email as [|c s IH]; [reflexivity |].
  simpl. rewrite IH, orb_false_r.
  destruct (Ascii.eqb_spec c "@") as [-> | Hne]; [reflexivity |].
  now apply Ascii.eqb_neq.
Qed.

(** X2.  Converting twice is converting once: the address derived from an
    already converted name is the address derived from the email. *)
Theorem derive_of_converted (email event_code : string) :
  email_to_filename (email_to_filename email) = email_to_filename email
  /\ derive (email_to_filename email) event_code = derive email event_code.
Proof.
  assert (H : email_to_filename (email_to_filename email) = email_to_filename email).
  { unfold email_to_filename. induction email as [|c s IH]; [reflexivity |].
    simpl. rewrite IH. f_equal.
    destruct (Ascii.eqb_spec c "@") as [-> | Hne]; [reflexivity |].
    now apply Ascii.eqb_neq in Hne as ->. }
  split; [exact H |]. unfold derive. now rewrite H.
Qed.

Lemma replace_inj_without_underscore a b :
  PyStr.contains_char "_" a = false ->
  PyStr.contains_char "_" b = false ->
  PyStr.replace "@" "_" a = PyStr.replace "@" "_" b -> a = b.
Proof.
  revert b. induction a as [|x a IH]; intros [|y b]; simpl; try discriminate;
    [reflexivity |].
  rewrite !orb_false_iff. intros [Hx Ha] [Hy Hb] H. injection H as Hc Hs.
  f_equal; [| now apply IH].
  apply Ascii.eqb_neq in Hx, Hy.
  destruct (Ascii.eqb_spec x "@") as [-> | Hx'],
           (Ascii.eqb_spec y "@") as [-> | Hy']; congruence.
Qed.

(** X3.  On emails without "_", the derivation is injective: two such
    emails with the same address for the same event code are equal. *)
Theorem derive_injective_without_underscore (e1 e2 event_code : string) :
  PyStr.contains_char "_" e1 = false ->
  PyStr.contains_char "_" e2 = false ->
  derive e1 event_code = derive e2 event_code ->
  e1 = e2.
Proof.
  intros H1 H2 H. unfold derive, certificate_url in H.
  do 3 apply append_cancel_l in H. apply append_cancel_r in H.
  now apply replace_inj_without_underscore.
Qed.

Lemma derive_injective_without_underscore_witness : "a@x.com" = "a@x.com".
Proof.
  apply (derive_injective_without_underscore "a@x.com" "a@x.com" "G");
    reflexivity.
Defined.

(** X4.  An "@" and a "_" at the same place are not told apart: two
    different entries that differ only there have the same address. *)
Theorem derive_collision (p q event_code : string) :
  p +:+ "@" +:+ q <> p +:+ "_" +:+ q
  /\ derive (p +:+ "@" +:+ q) event_code = derive (p +:+ "_" +:+ q) event_code.
Proof.
  split.
  - intros H. apply append_cancel_l in H. discriminate.
  - unfold derive, email_to_filename. now rewrite !replace_append.
Qed.

(** ** Further properties of the probe *)

Lemma found_classify_inv url resp :
  found (classify url resp) = true ->
  status_code resp = 200 /\ indicates_pdf resp = true
  /\ classify url resp = Confirmed url.
Proof.
  unfold classify. destruct (Z.eqb_spec (status_code resp) 200) as [E | E];
    [destruct (indicates_pdf resp) |]; simpl; intros H; try discriminate.
  auto.
Qed.

Lemma result_url_classify url resp : snd (fst (classify url resp)) = url.
Proof.
  unfold classify. destruct (_ =? _); [destruct (indicates_pdf _) |]; reflexivity.
Qed.

Lemma slept_seconds_app l1 l2 :
  slept_seconds (l1 ++ l2) = slept_seconds l1 + slept_seconds l2.
Proof.
  induction l1 as [|[u | d] l1 IH]; simpl; lia.
Qed.

Lemma slept_seconds_retry_log url d k :
  slept_seconds (retry_log url d k) = Z.of_nat k * d.
Proof. induction k as [|k IH]; simpl slept_seconds; lia. Qed.

Section ProbeFootprint.

Variable net : nat -> string -> head_result.
Variable url : string.
Variables max_retries retry_delay : Z.

Let body := attempt_body net url max_retries retry_delay.

Lemma loop_found n : forall a w v w',
  for_in (seqZ a (Z.of_nat n)) body w = Ok (Some v) w' ->
  found v = true ->
  exists k resp,
    (k < n)%nat
    /\ net (calls w + k)%nat url = Responded resp
    /\ status_code resp = 200 /\ indicates_pdf resp = true
    /\ v = Confirmed url.
Proof.
  induction n as [|n IH]; intros a w v w'; [discriminate |].
  unfold body. rewrite seqZ_S_cons, for_in_cons.
  destruct (net (calls w) url) as [resp | e] eqn:H.
  - rewrite (attempt_responded net url max_retries retry_delay a w resp H).
    intros E Hf. injection E as <- _.
    destruct (found_classify_inv url resp Hf) as (Hst & Hpdf & Hc).
    exists O, resp. rewrite Nat.add_0_r. repeat split; auto; lia.
  - destruct (Z.lt_ge_cases a max_retries) as [Hlt | Hge].
    + destruct (sleep_refusal_cases retry_delay)
        as [[Hpos _] | (_ & e' & He' & _)];
        [| rewrite (attempt_failed_bad_delay net url max_retries retry_delay
                      a w e e' H Hlt He'); discriminate].
      * rewrite (attempt_failed_retry net url max_retries retry_delay a w e H Hlt Hpos).
        intros E Hf. destruct (IH _ _ _ _ E Hf) as (k & resp & Hk & Hnet & Hrest).
        exists (S k), resp. simpl in Hnet.
        replace (calls w + S k)%nat with (S (calls w + k)) by lia.
        repeat split; try tauto; lia.
    + rewrite (attempt_failed_last net url max_retries retry_delay a w e H) by lia.
      intros E Hf. injection E as <- _. discriminate.
Qed.

(** What a run of the loop adds to the world, however it ends. *)
Lemma loop_footprint n : forall a w,
  exists new,
    log (world_of (for_in (seqZ a (Z.of_nat n)) body w)) = (log w ++ new)%list
    /\ calls (world_of (for_in (seqZ a (Z.of_nat n)) body w))
       = (calls w + requests_in new)%nat
    /\ (requests_in new <= n)%nat
    /\ (sleeps_in new <= requests_in new)%nat
    /\ Forall (fun ev => ev = EvRequest url \/ ev = EvSleep retry_delay) new.
Proof.
  induction n as [|n IH]; intros a w.
  - exists []. simpl. rewrite app_nil_r. repeat split; auto; unfold requests_in; simpl; lia.
  - unfold body. rewrite seqZ_S_cons, for_in_cons.
    destruct (attempt_cases net url max_retries retry_delay a w)
      as [[v ->] | [(_ & _ & ->) | (_ & _ & e' & _ & ->)]].
    + exists [EvRequest url]. simpl. unfold requests_in, sleeps_in. simpl.
      repeat split; auto; lia.
    + destruct (IH (Z.succ a) (slept retry_delay (requested url w)))
        as (new & Hlog & Hcalls & Hreq & Hsl & Hall).
      fold body. rewrite Hlog, Hcalls. simpl.
      exists (EvRequest url :: EvSleep retry_delay :: new).
      unfold requests_in, sleeps_in in *. simpl.
      repeat split; try lia.
      * now rewrite <- !app_assoc.
      * constructor; [now left |]. constructor; [now right | exact Hall].
    + exists [EvRequest url]. simpl. unfold requests_in, sleeps_in. simpl.
      repeat split; auto; lia.
Qed.

End ProbeFootprint.

(** X5.  Whatever the probe returns, the address in the result is the
    address derived from the email and the event code. *)
Theorem result_url_is_derived net email event_code max_retries retry_delay w r w' :
  check_pdf_exists net email event_code max_retries retry_delay w = Ok r w' ->
  snd (fst r) = derive email event_code.
Proof.
  rewrite check_unfold.
  pose proof (loop_value_in_loop net email event_code max_retries retry_delay w) as Hv.
  destruct (for_in _ _ w) as [[v|] w1 | e1 w1]; intros E; [| | discriminate].
  - injection E as <- _.
    destruct (Hv _ _ eq_refl) as [[resp ->] | [e ->]];
      [apply result_url_classify | reflexivity].
  - injection E as <- _. reflexivity.
Qed.

Lemma result_url_is_derived_witness :
  snd (fst (NotFound (derive "a@b.com" "G") 404)) = derive "a@b.com" "G".
Proof.
  apply (result_url_is_derived
           (always (Responded (response_with 404 "text/html")))
           "a@b.com" "G" 5 5 w0 _ (requested (derive "a@b.com" "G") w0)).
  vm_compute. reflexivity.
Defined.

(** X6.  The found flag is true only on evidence: some request of this
    probe, within the attempt bound, was answered with status 200 and a
    content type that holds "pdf", and the result is the Confirmed tuple. *)
Theorem found_only_on_pdf_response
    net email event_code max_retries retry_delay w r w' :
  check_pdf_exists net email event_code max_retries retry_delay w = Ok r w' ->
  found r = true ->
  exists k resp,
    Z.of_nat k < max_retries
    /\ net (calls w + k)%nat (derive email event_code) = Responded resp
    /\ status_code resp = 200 /\ indicates_pdf resp = true
    /\ r = Confirmed (derive email event_code).
Proof.
  rewrite check_unfold, range_attempts.
  destruct (for_in _ _ w) as [[v|] w1 | e1 w1] eqn:E; intros Er Hf;
    [| injection Er as <- _; discriminate | discriminate].
  injection Er as <- _.
  destruct (loop_found net _ max_retries retry_delay _ _ _ _ _ E Hf)
    as (k & resp & Hk & Hrest).
  exists k, resp. split; [lia | exact Hrest].
Qed.

Lemma found_only_on_pdf_response_witness :
  exists k resp,
    Z.of_nat k < 5
    /\ always (Responded (response_with 200 "application/pdf"))
         (calls w0 + k)%nat (derive "a@b.com" "G") = Responded resp
    /\ status_code resp = 200 /\ indicates_pdf resp = true
    /\ Confirmed (derive "a@b.com" "G") = Confirmed (derive "a@b.com" "G").
Proof.
  apply (found_only_on_pdf_response
           (always (Responded (response_with 200 "application/pdf")))
           "a@b.com" "G" 5 5 w0 (Confirmed (derive "a@b.com" "G"))
           (requested (derive "a@b.com" "G") w0));
    vm_compute; reflexivity.
Defined.

(** X7.  However a probe ends, by a return or by an exception, it has only
    added to the log, every event it added is a request for its own address
    or a sleep of [retry_delay], it has issued at most [max_retries]
    requests and never more sleeps than requests, and the request counter
    has moved by the number of requests logged. *)
Theorem probe_footprint net email event_code max_retries retry_delay w :
  exists new,
    log (world_of (check_pdf_exists net email event_code max_retries retry_delay w))
    = (log w ++ new)%list
    /\ calls (world_of (check_pdf_exists net email event_code max_retries retry_delay w))
       = (calls w + requests_in new)%nat
    /\ (requests_in new <= Z.to_nat max_retries)%nat
    /\ (sleeps_in new <= requests_in new)%nat
    /\ Forall (fun ev => ev = EvRequest (derive email event_code)
                         \/ ev = EvSleep retry_delay) new.
Proof.
  destruct (loop_footprint net (derive email event_code) max_retries retry_delay
              (Z.to_nat max_retries) 1 w) as (new & H).
  exists new. rewrite check_unfold, range_attempts.
  destruct (for_in _ _ w) as [[v|] w1 | e1 w1]; exact H.
Qed.



(** X9.  A delay [time.sleep] does not take is not handled: when the first
    request fails at the transport and another attempt is left, the sleep
    raises inside the [except] clause and the probe ends with that
    exception after this one request.  The exception is OverflowError for a
    length beyond [sleep_max] in either direction, and ValueError for any
    other negative length. *)
Theorem refused_delay_escapes net email event_code max_retries retry_delay w e :
  1 < max_retries ->
  ~ (0 <= retry_delay <= sleep_max) ->
  net (calls w) (derive email event_code) = Failed e ->
  check_pdf_exists net email event_code max_retries retry_delay w
  = Raise (if (retry_delay <? - sleep_max) || (sleep_max <? retry_delay)
           then OverflowError
           else ValueError "sleep length must be non-negative")
          (requested (derive email event_code) w).
Proof.
  intros Hmr Hd Hnet. rewrite check_unfold, range_attempts.
  destruct (Z.to_nat max_retries) as [|n] eqn:E; [lia |].
  rewrite seqZ_S_cons, for_in_cons.
  assert (Hs : sleep_refusal retry_delay
               = Some (if (retry_delay <? - sleep_max) || (sleep_max <? retry_delay)
                       then OverflowError
                       else ValueError "sleep length must be non-negative")).
  { unfold sleep_refusal.
    destruct ((retry_delay <? - sleep_max) || (sleep_max <? retry_delay)) eqn:Ho;
      [reflexivity |].
    apply orb_false_iff in Ho as [H1 H2]. apply Z.ltb_ge in H1, H2.
    destruct (Z.ltb_spec retry_delay 0); [reflexivity | lia]. }
  now rewrite (attempt_failed_bad_delay net _ max_retries retry_delay 1 w e _
                 Hnet ltac:(lia) Hs).
Qed.

Lemma refused_delay_escapes_witness :
  check_pdf_exists (always (Failed connection_exc)) "a@b.com" "G" 5 (-3) w0
  = Raise (if (-3 <? - sleep_max) || (sleep_max <? -3)
           then OverflowError
           else ValueError "sleep length must be non-negative")
          (requested (derive "a@b.com" "G") w0).
Proof.
  apply (refused_delay_escapes (always (Failed connection_exc))
           "a@b.com" "G" 5 (-3) w0 connection_exc);
    [lia | unfold sleep_max; lia | reflexivity].
Defined.

(** X10.  With a bound of 1 the delay is never used: whatever its value,
    the probe issues one request and returns the classification of the
    answer or the TransportFailure of the exception. *)
Theorem single_attempt_never_sleeps net email event_code retry_delay w :
  check_pdf_exists net email event_code 1 retry_delay w
  = Ok (match net (calls w) (derive email event_code) with
        | Responded resp => classify (derive email event_code) resp
        | Failed e => TransportFailure (derive email event_code) e 1
        end)
       (requested (derive email event_code) w).
Proof.
  rewrite check_unfold, range_attempts.
  change (Z.to_nat 1) with 1%nat. rewrite seqZ_S_cons, for_in_cons.
  destruct (net (calls w) (derive email event_code)) as [resp | e] eqn:H.
  - now rewrite (attempt_responded net _ 1 retry_delay 1 w resp H).
  - now rewrite (attempt_failed_last net _ 1 retry_delay 1 w e H) by lia.
Qed.

(** ** Further properties of the batch *)

Lemma check_result_shape net email event_code max_retries retry_delay w r w' :
  check_pdf_exists net email event_code max_retries retry_delay w = Ok r w' ->
  r = Fallback (derive email event_code)
  \/ (exists resp, r = classify (derive email event_code) resp)
  \/ (exists e, r = TransportFailure (derive email event_code) e max_retries).
Proof.
  rewrite check_unfold.
  pose proof (loop_value_in_loop net email event_code max_retries retry_delay w) as Hv.
  destruct (for_in _ _ w) as [[v|] w1 | e1 w1]; intros E; [| | discriminate].
  - injection E as <- _. right. exact (Hv _ _ eq_refl).
  - injection E as <- _. now left.
Qed.

(** In every tuple the probe can return, the message is "PDF exists" for
    the true found flag and for no other. *)
Lemma message_tells_found url max_retries r :
  r = Fallback url
  \/ (exists resp, r = classify url resp)
  \/ (exists e, r = TransportFailure url e max_retries) ->
  snd (fst r) = url /\ (found r = true <-> snd r = "PDF exists").
Proof.
  intros [-> | [[resp ->] | [e ->]]].
  - split; [reflexivity |]. simpl. split; intros H; inversion H.
  - split; [apply result_url_classify |]. unfold classify.
    destruct (_ =? _); [destruct (indicates_pdf _) |]; simpl;
      split; intros H; try reflexivity; inversion H.
  - split; [reflexivity |]. unfold TransportFailure, failure_class.
    destruct (is_Timeout e); [| destruct (is_ConnectionError e)]; simpl;
      split; intros H; inversion H.
Qed.

Section BatchMore.

Variable net : nat -> string -> head_result.
Variable event_code : string.

(** A property of records that every probe of a valid entry establishes
    holds of all records the loop appends. *)
Lemma check_emails_Forall (P : outcome_record -> Prop) :
  (forall email w r w',
     valid email = true ->
     call_check_pdf_exists net email event_code None None w = Ok r w' ->
     P (email, found r, snd (fst r), snd r)) ->
  forall emails acc w rs w',
    check_emails net event_code emails acc w = Ok rs w' ->
    Forall P acc -> Forall P rs.
Proof.
  intros HP. induction emails as [|email rest IH]; intros acc w rs w'.
  - simpl. unfold ret. intros E. now injection E as <- _.
  - rewrite check_emails_cons, skipped_not_valid.
    destruct (valid email) eqn:Hv; simpl negb; cbv iota; [| apply IH].
    destruct (call_check_pdf_exists net email event_code None None w)
      as [r w1 | e w1] eqn:E; [| discriminate].
    intros Erest Hacc. apply (IH _ _ _ _ Erest).
    apply Forall_app. split; [exact Hacc |].
    constructor; [| constructor]. now apply (HP email w r w1).
Qed.

Lemma default_probe_budget email w :
  exists r w' new,
    call_check_pdf_exists net email event_code None None w = Ok r w'
    /\ log w' = (log w ++ new)%list
    /\ calls w' = (calls w + requests_in new)%nat
    /\ (1 <= requests_in new <= 5)%nat
    /\ 0 <= slept_seconds new <= 20.
Proof.
  unfold call_check_pdf_exists. simpl.
  destruct (check_cases net email event_code 5 5 w)
    as (r & w' & E & [(Hlt & _) | (_ & _ & k & Hk & Hcalls & Hlog & _)]);
    [unfold sleep_max; lia | lia |].
  exists r, w', (retry_log (derive email event_code) 5 k
                 ++ [EvRequest (derive email event_code)])%list.
  split; [exact E |]. split; [exact Hlog |].
  rewrite requests_in_app, slept_seconds_app, requests_in_retry_log,
    slept_seconds_retry_log.
  unfold requests_in. simpl. repeat split; lia.
Qed.

End BatchMore.

(** X11.  The loop composes over concatenation: a batch over [l1 ++ l2] is
    the batch over [l1] followed by the batch over [l2] run in the world the
    first one left, appending to the results of the first. *)
Theorem check_emails_app net event_code l1 l2 acc w :
  check_emails net event_code (l1 ++ l2) acc w
  = bind (check_emails net event_code l1 acc)
         (fun rs => check_emails net event_code l2 rs) w.
Proof.
  revert acc w. induction l1 as [|email rest IH]; intros acc w; [reflexivity |].
  change ((email :: rest) ++ l2)%list with (email :: (rest ++ l2))%list.
  unfold bind at 1. rewrite !check_emails_cons.
  destruct (skipped email); [apply IH |].
  destruct (call_check_pdf_exists net email event_code None None w);
    [apply IH | reflexivity].
Qed.

Lemma filter_keeps_all {A} (f : A -> bool) (l : list A) :
  length (List.filter f l) = length l <-> Forall (fun x => f x = true) l.
Proof.
  induction l as [|x l IH]; simpl.
  - split; [constructor | reflexivity].
  - pose proof (List.filter_length_le f l) as Hle.
    destruct (f x) eqn:Hx; simpl; split.
    + intros H. constructor; [exact Hx | apply IH; lia].
    + intros H. inversion H; subst. f_equal. now apply IH.
    + lia.
    + intros H. inversion H; subst. congruence.
Qed.

(** X12.  For any list of records the three numbers of the summary are
    consistent: found and missing add up to total, each lies between 0 and
    total, and missing is 0 exactly when every record has a true found
    flag. *)
Theorem summary_is_consistent (results : list outcome_record) :
  exists total success failed,
    summary results = (total, success, failed)
    /\ total = success + failed
    /\ 0 <= success <= total
    /\ 0 <= failed <= total
    /\ (failed = 0 <-> Forall (fun r => record_found r = true) results).
Proof.
  rewrite summary_counts. do 3 eexists. split; [reflexivity |].
  pose proof (List.filter_length_le record_found results) as Hle.
  rewrite <- (filter_keeps_all record_found results).
  repeat split; lia.
Qed.

(** X13.  A batch with the default policy issues at least one and at most
    five requests per valid entry and none for the others, and sleeps at
    most 20 seconds per valid entry. *)
Theorem batch_budget net event_code emails : forall acc w,
  exists results w' new,
    check_emails net event_code emails acc w = Ok results w'
    /\ log w' = (log w ++ new)%list
    /\ calls w' = (calls w + requests_in new)%nat
    /\ (length (List.filter valid emails) <= requests_in new
        <= 5 * length (List.filter valid emails))%nat
    /\ 0 <= slept_seconds new <= 20 * Z.of_nat (length (List.filter valid emails)).
Proof.
  induction emails as [|email rest IH]; intros acc w.
  - exists acc, w, []. simpl. rewrite app_nil_r.
    unfold requests_in. simpl. repeat split; lia.
  - rewrite check_emails_cons, skipped_not_valid. simpl List.filter.
    destruct (valid email) eqn:Hv; simpl negb; cbv iota; [| apply IH].
    destruct (default_probe_budget net event_code email w)
      as (r & w1 & new1 & -> & Hlog1 & Hcalls1 & Hreq1 & Hsl1).
    destruct (IH (acc ++ [(email, found r, snd (fst r), snd r)])%list w1)
      as (rs & w' & new & -> & Hlog & Hcalls & Hreq & Hsl).
    exists rs, w', (new1 ++ new)%list.
    split; [reflexivity |].
    split; [rewrite Hlog, Hlog1; now rewrite app_assoc |].
    rewrite requests_in_app, slept_seconds_app. simpl length.
    repeat split; lia.
Qed.

(** X14.  Every record of a batch is consistent with itself: its address is
    the one derived from its own email, its email holds an "@", and its
    found flag is true exactly when its message is "PDF exists". *)
Theorem records_are_consistent net event_code emails w results w' :
  check_emails net event_code emails [] w = Ok results w' ->
  Forall (fun r =>
            record_url r = derive (record_email r) event_code
            /\ PyStr.contains_char "@" (record_email r) = true
            /\ (record_found r = true <-> record_message r = "PDF exists"))
         results.
Proof.
  intros E. refine (check_emails_Forall net event_code _ _ emails [] w results w' E _);
    [| constructor].
  intros email w1 r w2 Hv Ecall. unfold call_check_pdf_exists in Ecall. simpl in Ecall.
  destruct (message_tells_found _ 5 r (check_result_shape _ _ _ _ _ _ _ _ Ecall))
    as [Hurl Hmsg].
  unfold record_url, record_email, record_found, record_message. simpl.
  split; [exact Hurl |]. split; [| exact Hmsg].
  now apply valid_spec in Hv as [_ Hat].
Qed.

Lemma records_are_consistent_witness :
  Forall (fun r =>
            record_url r = derive (record_email r) "G"
            /\ PyStr.contains_char "@" (record_email r) = true
            /\ (record_found r = true <-> record_message r = "PDF exists"))
         [("a@x.com", false, derive "a@x.com" "G", "HTTP Status: 404")].
Proof.
  apply (records_are_consistent
           (always (Responded (response_with 404 "text/html")))
           "G" ["a@x.com"; "bad"] w0 _
           (requested (derive "a@x.com" "G") w0)).
  vm_compute. reflexivity.
Defined.

(** ** Reading the emails *)

Lemma lstrip_fixed s :
  match s with
  | EmptyString => True
  | String c _ => PyStr.isspace c = false
  end -> PyStr.lstrip s = s.
Proof. destruct s as [|c s]; simpl; [trivial | now intros ->]. Qed.

Lemma lstrip_head s :
  match PyStr.lstrip s with
  | EmptyString => True
  | String c _ => PyStr.isspace c = false
  end.
Proof.
  induction s as [|c s IH]; simpl; [trivial |].
  destruct (PyStr.isspace c) eqn:H; [exact IH | exact H].
Qed.

Lemma rstrip_head s :
  match s with
  | EmptyString => True
  | String c _ => PyStr.isspace c = false
  end ->
  match PyStr.rstrip s with
  | EmptyString => True
  | String c _ => PyStr.isspace c = false
  end.
Proof.
  destruct s as [|c s]; simpl; [trivial |]. intros H.
  destruct (PyStr.rstrip s); [rewrite H |]; exact H.
Qed.

Lemma rstrip_idempotent s : PyStr.rstrip (PyStr.rstrip s) = PyStr.rstrip s.
Proof.
  induction s as [|c s IH]; simpl; [reflexivity |].
  destruct (PyStr.rstrip s) as [|d r] eqn:E.
  - destruct (PyStr.isspace c) eqn:H; simpl; [reflexivity | now rewrite H].
  - change (PyStr.rstrip (String c (String d r)) = String c (String d r)).
    simpl PyStr.rstrip at 1. simpl in IH.
    destruct (PyStr.rstrip r) as [|d' r'] eqn:E'.
    + destruct (PyStr.isspace d) eqn:Hd; [discriminate |].
      injection IH as Hr. subst r. reflexivity.
    + injection IH as Hr. now rewrite Hr.
Qed.

(** Stripping a stripped string changes nothing. *)
Lemma strip_idempotent s : PyStr.strip (PyStr.strip s) = PyStr.strip s.
Proof.
  unfold PyStr.strip.
  rewrite (lstrip_fixed (PyStr.rstrip (PyStr.lstrip s))).
  - apply rstrip_idempotent.
  - apply rstrip_head, lstrip_head.
Qed.

(** X15.  The email column of a file with header is the first field whose
    name holds "email" in any letter case; there is none exactly when no
    field name does. *)
Theorem email_column_is_first_match (fieldnames : list string) :
  (forall field,
     find_email_field fieldnames = Some field <->
     exists before after,
       fieldnames = (before ++ field :: after)%list
       /\ PyStr.contains "email" (PyStr.lower field) = true
       /\ Forall (fun f => PyStr.contains "email" (PyStr.lower f) = false) before)
  /\ (find_email_field fieldnames = None <->
      Forall (fun f => PyStr.contains "email" (PyStr.lower f) = false) fieldnames).
Proof.
  induction fieldnames as [|f fs [IHsome IHnone]]; simpl.
  - split; [intros field; split; [discriminate |] | split; constructor].
    intros ([|b before] & after & E & _); discriminate.
  - destruct (PyStr.contains "email" (PyStr.lower f)) eqn:Hf; split.
    + intros field. split.
      * intros E. injection E as <-. exists [], fs. repeat split; auto.
      * intros ([|b before] & after & E & Hc & Hbefore); injection E as <- _.
        -- reflexivity.
        -- inversion Hbefore; subst. congruence.
    + split; [discriminate |]. intros H. inversion H; subst. congruence.
    + intros field. rewrite IHsome. split.
      * intros (before & after & -> & Hc & Hb).
        exists (f :: before), after. repeat split; auto.
      * intros ([|b before] & after & E & Hc & Hbefore); injection E as <- E.
        -- congruence.
        -- inversion Hbefore; subst. exists before, after. auto.
    + rewrite IHnone. split; [intros H; now constructor |].
      intros H. now inversion H.
Qed.

Example email_column_ex :
  find_email_field ["No"; "Nama"; "Alamat E-Mail"; "EMAIL Peserta"; "email"]
  = Some "EMAIL Peserta".
Proof. reflexivity. Qed.

(** X16.  From a file without header comes one entry per row that has
    cells, in row order, and none for a blank line.  The entry of a row is
    its second cell when it has more than one cell and its only cell
    otherwise, stripped; so every entry is trimmed: stripping it again
    changes nothing. *)
Theorem emails_without_header_are_trimmed (rows : list (list string)) :
  emails_without_header rows
  = map (fun row => PyStr.strip (List.nth 1 row (List.hd "" row)))
        (List.filter (fun row => match row with [] => false | _ => true end) rows)
  /\ Forall (fun e => PyStr.strip e = e) (emails_without_header rows)
  /\ length (emails_without_header rows)
     = length (List.filter (fun row => match row with [] => false | _ => true end) rows).
Proof.
  induction rows as [|row rows (IHm & IHt & IHl)]; simpl;
    [split; [reflexivity | split; [constructor | reflexivity]] |].
  destruct row as [|c1 [|c2 row]]; simpl.
  - auto.
  - split; [now rewrite IHm |].
    split; [constructor; [apply strip_idempotent | exact IHt] | now rewrite IHl].
  - split; [now rewrite IHm |].
    split; [constructor; [apply strip_idempotent | exact IHt] | now rewrite IHl].
Qed.

Example emails_without_header_ex :
  emails_without_header [["1"; " a@x.com "; "x"]; []; [" b@x.com"]; ["2"; ""]]
  = ["a@x.com"; "b@x.com"; ""].
Proof. reflexivity. Qed.

(** X17.  From a file with header the extraction succeeds exactly when
    every row has a string in the email column, and then gives the cells of
    that column that are not blank, in row order and as they are, white
    space at the ends included. *)
Theorem emails_with_header_keeps_cells email_field rows emails :
  emails_with_header email_field rows = inr emails <->
  exists cells,
    Forall2 (fun (row : gmap string (option string)) cell =>
               row !! email_field = Some (Some cell)) rows cells
    /\ emails = List.filter (fun cell => negb (PyStr.is_empty (PyStr.strip cell))) cells.
Proof.
  revert emails. induction rows as [|row rows IH]; intros emails; simpl.
  - split.
    + intros E. injection E as <-. exists []. split; [constructor | reflexivity].
    + intros (cells & HF & ->). inversion HF; subst. reflexivity.
  - destruct (row !! email_field) as [[value |] |] eqn:Hrow.
    + destruct (PyStr.is_empty (PyStr.strip value)) eqn:Hblank.
      * rewrite IH. split.
        -- intros (cells & HF & ->). exists (value :: cells).
           split; [now constructor |]. simpl. now rewrite Hblank.
        -- intros (cells & HF & ->). inversion HF as [|? c ? cs Hc HF']; subst.
           assert (c = value) as -> by congruence.
           exists cs. split; [exact HF' |]. simpl. now rewrite Hblank.
      * destruct (emails_with_header email_field rows) as [e | l] eqn:Erest.
        -- split; [discriminate |].
           intros (cells & HF & ->). inversion HF as [|? c ? cs Hc HF']; subst.
           assert (Hex : exists cells0, Forall2 (fun (row0 : gmap string (option string)) cell =>
                            row0 !! email_field = Some (Some cell)) rows cells0
                          /\ List.filter (fun cell => negb (PyStr.is_empty (PyStr.strip cell))) cs
                             = List.filter (fun cell => negb (PyStr.is_empty (PyStr.strip cell))) cells0)
             by (exists cs; auto).
           apply (IH (List.filter _ cs)) in Hex. discriminate.
        -- split.
           ++ intros E. injection E as <-.
              destruct (proj1 (IH l) eq_refl) as (cells & HF & ->).
              exists (value :: cells). split; [now constructor |].
              simpl. now rewrite Hblank.
           ++ intros (cells & HF & ->). inversion HF as [|? c ? cs Hc HF']; subst.
              assert (c = value) as -> by congruence.
              simpl. rewrite Hblank. simpl. do 2 f_equal.
              assert (Hl : inr l = inr (List.filter (fun cell =>
                             negb (PyStr.is_empty (PyStr.strip cell))) cs)
                           :> extraction_error + list string).
              { apply IH. exists cs. auto. }
              now injection Hl.
    + split; [discriminate |].
      intros (cells & HF & _). inversion HF; subst. congruence.
    + split; [discriminate |].
      intros (cells & HF & _). inversion HF; subst. congruence.
Qed.

(** ** [process_event] as a whole *)

Lemma process_event_checks_returns net event_code emails w :
  exists results w',
    process_event_checks net event_code emails w = Ok (results, summary results) w'
    /\ check_emails net event_code emails [] w = Ok results w'.
Proof.
  destruct (check_emails_spec net event_code emails [] w)
    as (rs & w' & new & E & _).
  simpl in E. exists rs, w'. unfold process_event_checks, bind, ret.
  rewrite E. auto.
Qed.

Lemma process_event_on_emails net source event_code e l w :
  extract_emails source = Emails (e :: l) ->
  exists results w',
    check_emails net event_code (e :: l) [] w = Ok results w'
    /\ process_event net source event_code w
       = Ok (mkEventRun true (Some (summary results, map log_row results))) w'.
Proof.
  intros Hx.
  destruct (process_event_checks_returns net event_code (e :: l) w)
    as (results & w' & E & Eloop).
  exists results, w'. split; [exact Eloop |].
  unfold process_event. rewrite Hx, E. reflexivity.
Qed.


Lemma check_emails_all_invalid net event_code emails : forall acc w,
  Forall (fun e => valid e = false) emails ->
  check_emails net event_code emails acc w = Ok acc w.
Proof.
  induction emails as [|email rest IH]; intros acc w H; [reflexivity |].
  inversion H as [|? ? Hv Hrest]; subst.
  rewrite check_emails_cons, skipped_not_valid, Hv. simpl. now apply IH.
Qed.

(** X19.  A file whose entries are all invalid still makes a successful
    run: when at least one entry was read and none is valid,
    [process_event] returns True, issues no request, and writes a results
    file with total 0, found 0, missing 0 and no row. *)
Theorem all_invalid_run_succeeds net source event_code emails w :
  extract_emails source = Emails emails ->
  emails <> [] ->
  Forall (fun e => valid e = false) emails ->
  process_event net source event_code w
  = Ok (mkEventRun true (Some ((0, 0, 0), []))) w.
Proof.
  intros Hx Hne Hall. destruct emails as [|e l]; [contradiction |].
  unfold process_event. rewrite Hx.
  unfold process_event_checks, bind, ret.
  now rewrite (check_emails_all_invalid net event_code (e :: l) [] w Hall).
Qed.

Lemma all_invalid_run_succeeds_witness :
  process_event (always (Failed timeout_exc))
    (NoHeader [["1"; " budi "]; []; ["ani.example.com"]]) "681ec43c" w0
  = Ok (mkEventRun true (Some ((0, 0, 0), []))) w0.
Proof.
  apply (all_invalid_run_succeeds (always (Failed timeout_exc))
           (NoHeader [["1"; " budi "]; []; ["ani.example.com"]]) "681ec43c"
           ["budi"; "ani.example.com"] w0).
  - reflexivity.
  - discriminate.
  - repeat constructor.
Defined.

(** X20.  In a results file written by [process_event] the numbers of the
    "Total" line and the rows agree: total is the number of rows and found
    the number of rows with status FOUND.  In every row the status is FOUND
    or MISSING, FOUND exactly when the message is "PDF exists", and the
    address is the base address, the event code, "/" and the file name
    column. *)
Theorem results_file_is_consistent net source event_code w run w' counts rows :
  process_event net source event_code w = Ok run w' ->
  results_file run = Some (counts, rows) ->
  counts
  = (Z.of_nat (length rows),
     Z.of_nat (length (List.filter
                         (fun row => String.eqb (snd (fst (fst row))) "FOUND") rows)),
     Z.of_nat (length rows)
     - Z.of_nat (length (List.filter
                           (fun row => String.eqb (snd (fst (fst row))) "FOUND") rows)))
  /\ Forall (fun row =>
               let '(email, filename, status, url, message) := row in
               filename = email_to_filename email +:+ ".pdf"
               /\ url = "https://bbpvpbekasi.kemnaker.go.id/bulanvokasi/sertifikatbv/"
                        +:+ event_code +:+ "/" +:+ filename
               /\ (status = "FOUND" \/ status = "MISSING")
               /\ (status = "FOUND" <-> message = "PDF exists"))
            rows.
Proof.
  intros E Hfile.
  destruct (extract_emails source) as [[|e l] | | |] eqn:Hx;
    try (unfold process_event in E; rewrite Hx in E; injection E as <- _; discriminate).
  destruct (process_event_on_emails net source event_code e l w Hx)
    as (results & w1 & Eloop & E1).
  rewrite E1 in E. injection E as <- _. simpl in Hfile.
  injection Hfile as <- <-.
  assert (Hrec : Forall (fun r =>
                   record_url r = derive (record_email r) event_code
                   /\ (record_found r = true <-> record_message r = "PDF exists"))
                 results).
  { refine (check_emails_Forall net event_code _ _ (e :: l) [] w results w1 Eloop _);
      [| constructor].
    intros email wa r wb _ Ecall. unfold call_check_pdf_exists in Ecall. simpl in Ecall.
    exact (message_tells_found _ 5 r (check_result_shape _ _ _ _ _ _ _ _ Ecall)). }
  split.
  - rewrite summary_counts, length_map. do 2 f_equal.
    + f_equal. clear. induction results as [|[[[em b] u] m] rs IH]; [reflexivity |].
      simpl. unfold record_found at 1. simpl. destruct b; simpl; now rewrite IH.
    + do 2 f_equal. clear. induction results as [|[[[em b] u] m] rs IH]; [reflexivity |].
      simpl. unfold record_found at 1. simpl. destruct b; simpl; now rewrite IH.
  - clear Eloop E1. induction Hrec as [|[[[em b] u] m] rs [Hurl Hmsg] _ IH];
      [constructor |].
    simpl. constructor; [| exact IH].
    unfold record_url, record_email, record_found, record_message in Hurl, Hmsg.
    simpl in Hurl, Hmsg. subst u.
    split; [reflexivity |]. split.
    + reflexivity.
    + split; [destruct b; auto |].
      rewrite <- Hmsg. destruct b; split; intros H; try reflexivity; discriminate.
Qed.

Lemma results_file_is_consistent_witness :
  (2, 1, 1)
  = (Z.of_nat (length [log_row ("a@x.com", true, derive "a@x.com" "G", "PDF exists");
                       log_row ("b@x.com", false, derive "b@x.com" "G", "HTTP Status: 404")]),
     Z.of_nat (length (List.filter
                         (fun row => String.eqb (snd (fst (fst row))) "FOUND")
                         [log_row ("a@x.com", true, derive "a@x.com" "G", "PDF exists");
                          log_row ("b@x.com", false, derive "b@x.com" "G", "HTTP Status: 404")])),
     Z.of_nat (length [log_row ("a@x.com", true, derive "a@x.com" "G", "PDF exists");
                       log_row ("b@x.com", false, derive "b@x.com" "G", "HTTP Status: 404")])
     - Z.of_nat (length (List.filter
                           (fun row => String.eqb (snd (fst (fst row))) "FOUND")
                           [log_row ("a@x.com", true, derive "a@x.com" "G", "PDF exists");
                            log_row ("b@x.com", false, derive "b@x.com" "G", "HTTP Status: 404")])))
  /\ Forall (fun row =>
               let '(email, filename, status, url, message) := row in
               filename = email_to_filename email +:+ ".pdf"
               /\ url = "https://bbpvpbekasi.kemnaker.go.id/bulanvokasi/sertifikatbv/"
                        +:+ "G" +:+ "/" +:+ filename
               /\ (status = "FOUND" \/ status = "MISSING")
               /\ (status = "FOUND" <-> message = "PDF exists"))
            [log_row ("a@x.com", true, derive "a@x.com" "G", "PDF exists");
             log_row ("b@x.com", false, derive "b@x.com" "G", "HTTP Status: 404")].
Proof.
  apply (results_file_is_consistent
           (fun k _ => match k with
                       | O => Responded (response_with 200 "application/pdf")
                       | _ => Responded (response_with 404 "text/html")
                       end)
           (NoHeader [["a@x.com"]; ["x"; "b@x.com"]]) "G" w0
           (mkEventRun true
              (Some ((2, 1, 1),
                     [log_row ("a@x.com", true, derive "a@x.com" "G", "PDF exists");
                      log_row ("b@x.com", false, derive "b@x.com" "G", "HTTP Status: 404")])))
           (mkWorld 2 [EvRequest (derive "a@x.com" "G"); EvRequest (derive "b@x.com" "G")]));
    vm_compute; reflexivity.
Defined.

(** ** The menu and the loop of [main] *)

Lemma int_of_digit_string_decimal limit s n :
  int_of_digit_string limit s = Some n -> int_of_decimal 0 s = Some n.
Proof.
  unfold int_of_digit_string. destruct limit as [l |]; [| trivial].
  destruct (l <? String.length s)%nat; [discriminate | trivial].
Qed.

Lemma int_of_decimal_refuses c s : forall acc,
  PyStr.contains_char c s = true -> decimal_value c = None ->
  int_of_decimal acc s = None.
Proof.
  induction s as [|d s IH]; intros acc; simpl; [discriminate |].
  rewrite orb_true_iff, Ascii.eqb_eq. intros [-> | Hin] Hc.
  - now rewrite Hc.
  - destruct (decimal_value d); [now apply IH | reflexivity].
Qed.

Lemma py_index_listed n :
  1 <= n <= Z.of_nat (length event_codes) ->
  exists code,
    py_index event_codes (n - 1) = Some code
    /\ event_codes !! Z.to_nat (n - 1) = Some code
    /\ In code event_codes.
Proof.
  simpl. intros H.
  assert (Hn : n = 1 \/ n = 2 \/ n = 3 \/ n = 4 \/ n = 5 \/ n = 6 \/ n = 7 \/ n = 8)
    by lia.
  destruct Hn as [-> | [-> | [-> | [-> | [-> | [-> | [-> | ->]]]]]]];
    eexists; (split; [reflexivity |]); (split; [reflexivity |]); simpl; tauto.
Qed.

Lemma choose_exit limit raw :
  choose limit raw = inr Exit <-> PyStr.lower (PyStr.strip raw) = "0".
Proof.
  unfold choose. destruct (String.eqb_spec (PyStr.lower (PyStr.strip raw)) "0") as [E | E].
  - tauto.
  - split; [| contradiction].
    destruct (String.eqb _ "a"); [discriminate |].
    destruct (isdigit _); [| discriminate].
    destruct (int_of_digit_string _ _) as [n |]; [| discriminate].
    destruct ((1 <=? n) && _); [| discriminate].
    destruct (py_index _ _); discriminate.
Qed.

Lemma choose_stays_in_the_list_aux limit raw code :
  choose limit raw = inr (CheckOne code) ->
  (exists n, int_of_decimal 0 (PyStr.lower (PyStr.strip raw)) = Some n
             /\ 1 <= n <= 8
             /\ event_codes !! Z.to_nat (n - 1) = Some code)
  /\ In code event_codes.
Proof.
  unfold choose.
  destruct (String.eqb _ "0"); [discriminate |].
  destruct (String.eqb _ "a"); [discriminate |].
  destruct (isdigit _); [| discriminate].
  destruct (int_of_digit_string _ _) as [n |] eqn:Hint; [| discriminate].
  apply int_of_digit_string_decimal in Hint.
  destruct ((1 <=? n) && (n <=? Z.of_nat (length event_codes))) eqn:Hn;
    [| discriminate].
  apply andb_true_iff in Hn as [H1 H8]. apply Z.leb_le in H1, H8.
  destruct (py_index_listed n (conj H1 H8)) as (code' & -> & Hnth & Hin).
  intros E. injection E as <-. split; [| exact Hin].
  exists n. simpl in H8. repeat split; auto; lia.
Qed.

(** X21.  A choice never indexes outside the list of event codes: a
    numeric choice selects a code only when its value [n] is between 1 and
    8, and the code selected is the [n]-th of the list. *)
Theorem choose_stays_in_the_list (max_str_digits : option nat) (raw : string) :
  choose max_str_digits raw <> inl IndexError
  /\ (forall code,
        choose max_str_digits raw = inr (CheckOne code) ->
        exists n,
          int_of_decimal 0 (PyStr.lower (PyStr.strip raw)) = Some n
          /\ 1 <= n <= 8
          /\ event_codes !! Z.to_nat (n - 1) = Some code
          /\ In code event_codes).
Proof.
  unfold choose.
  destruct (String.eqb _ "0"); [split; [discriminate | intros ?; discriminate] |].
  destruct (String.eqb _ "a"); [split; [discriminate | intros ?; discriminate] |].
  destruct (isdigit _); [| split; [discriminate | intros ?; discriminate]].
  destruct (int_of_digit_string _ _) as [n |] eqn:Hint;
    [| split; [discriminate | intros ?; discriminate]].
  apply int_of_digit_string_decimal in Hint.
  destruct ((1 <=? n) && (n <=? Z.of_nat (length event_codes))) eqn:Hn;
    [| split; [discriminate | intros ?; discriminate]].
  apply andb_true_iff in Hn as [H1 H8]. apply Z.leb_le in H1, H8.
  destruct (py_index_listed n (conj H1 H8)) as (code & -> & Hnth & Hin).
  split; [discriminate |]. intros code' E. injection E as <-.
  exists n. simpl in H8. repeat split; auto; lia.
Qed.

Example choose_ex :
  map (choose (Some 4300%nat)) [" 3 "; "A"; "0"; "00"; "08"; "9"; "x"; ""]
  = [inr (CheckOne "c08ca642"); inr CheckAll; inr Exit; inr InvalidChoice;
     inr (CheckOne "fd0a971e"); inr InvalidChoice; inr InvalidChoice;
     inr InvalidChoice].
Proof. vm_compute. reflexivity. Qed.

(** X22.  A choice that passes [isdigit] and holds a character that is not
    a decimal digit, a superscript two say, ends [main] with the uncaught
    ValueError of [int], before any request. *)
Theorem superscript_choice_crashes
    max_str_digits net files (raw : string) (rest : list string) w (c : ascii) :
  isdigit (PyStr.lower (PyStr.strip raw)) = true ->
  PyStr.contains_char c (PyStr.lower (PyStr.strip raw)) = true ->
  decimal_value c = None ->
  choose max_str_digits raw = inl IntValueError
  /\ main max_str_digits net files (raw :: rest) w = Some (Crashed IntValueError, w).
Proof.
  intros Hd Hc Hv.
  assert (Hch : choose max_str_digits raw = inl IntValueError).
  { unfold choose.
    destruct (String.eqb_spec (PyStr.lower (PyStr.strip raw)) "0") as [E | _].
    { rewrite E in Hc. cbn [PyStr.contains_char] in Hc. rewrite orb_false_r in Hc.
      apply Ascii.eqb_eq in Hc. subst c. discriminate. }
    destruct (String.eqb_spec (PyStr.lower (PyStr.strip raw)) "a") as [E | _].
    { rewrite E in Hd. discriminate. }
    rewrite Hd.
    destruct (int_of_digit_string _ _) as [n |] eqn:Hint; [| reflexivity].
    apply int_of_digit_string_decimal in Hint.
    now rewrite (int_of_decimal_refuses c _ 0 Hc Hv) in Hint. }
  split; [exact Hch |]. unfold main. simpl. now rewrite Hch.
Qed.

Lemma superscript_choice_crashes_witness :
  choose (Some 4300%nat) (String "178" "") = inl IntValueError
  /\ main (Some 4300%nat) (always (Failed timeout_exc)) (fun _ => Missing)
          [String "178" ""; "0"] w0
     = Some (Crashed IntValueError, w0).
Proof.
  apply (superscript_choice_crashes (Some 4300%nat) (always (Failed timeout_exc))
           (fun _ => Missing) (String "178" "") ["0"] w0 "178"%char);
    reflexivity.
Defined.

Section MainFacts.

Variable max_str_digits : option nat.
Variable net : nat -> string -> head_result.
Variable files : string -> csv_source.

(** The requests of one [process_event] are all for addresses under its
    own event code. *)
Lemma process_event_footprint source code w :
  exists run w' new,
    process_event net source code w = Ok run w'
    /\ log w' = (log w ++ new)%list
    /\ Forall (fun ev => is_request ev = true ->
                         exists email, ev = EvRequest (derive email code)) new.
Proof.
  destruct (extract_emails source) as [[|e l] | | |] eqn:Hx;
    try (exists (mkEventRun false None), w, []; unfold process_event; rewrite Hx;
         rewrite app_nil_r; repeat split; constructor).
  destruct (check_emails_spec net code (e :: l) [] w)
    as (rs & w' & new & E & Hlog & _ & _ & Hreq & _).
  simpl app in E.
  exists (mkEventRun true (Some (summary rs, map log_row rs))), w', new.
  split; [| split; [exact Hlog |]].
  - unfold process_event. rewrite Hx. unfold process_event_checks, bind, ret.
    now rewrite E.
  - apply List.Forall_forall. intros [u | d] Hin Hr; [| discriminate].
    destruct (Hreq u Hin) as (email & _ & _ & ->). now exists email.
Qed.

Lemma listed_of_code code new :
  In code event_codes ->
  Forall (fun ev => is_request ev = true ->
                    exists email, ev = EvRequest (derive email code)) new ->
  Forall listed_request new.
Proof.
  intros Hin H. eapply List.Forall_impl; [| exact H].
  intros ev Hev Hr. destruct (Hev Hr) as [email ->]. now exists code, email.
Qed.

(** The loop over some listed codes: it only adds listed requests to the
    log, and when it ends well it has read one line per code. *)
Lemma check_all_footprint codes : forall inputs w,
  Forall (fun code => In code event_codes) codes ->
  exists new,
    Forall listed_request new
    /\ match check_all net files codes inputs w with
       | inl (_, w') => log w' = (log w ++ new)%list
       | inr (rest, w') =>
           log w' = (log w ++ new)%list
           /\ exists read, inputs = (read ++ rest)%list /\ length read = length codes
       end.
Proof.
  induction codes as [|code codes IH]; intros inputs w Hcodes.
  - exists []. split; [constructor |]. simpl. rewrite app_nil_r.
    split; [reflexivity |]. now exists [].
  - inversion Hcodes as [|? ? Hcode Hrest]; subst. simpl.
    destruct (process_event_footprint (files code) code w)
      as (run & w1 & new1 & -> & Hlog1 & Hall1).
    pose proof (listed_of_code code new1 Hcode Hall1) as Hl1.
    destruct inputs as [|line rest]; simpl.
    + exists new1. auto.
    + destruct (IH rest w1 Hrest) as (new & Hl & Hres).
      exists (new1 ++ new)%list. split; [now apply Forall_app |].
      destruct (check_all net files codes rest w1) as [[c w'] | [rest' w']].
      * rewrite Hres, Hlog1. now rewrite app_assoc.
      * destruct Hres as (Hlog & read & -> & Hlen).
        split; [rewrite Hlog, Hlog1; now rewrite app_assoc |].
        exists (line :: read). simpl. auto.
Qed.

Lemma event_codes_listed : Forall (fun code => In code event_codes) event_codes.
Proof. apply List.Forall_forall. auto. Qed.

(** With more fuel than lines the loop ends, and it has only added listed
    requests to the log; it says goodbye only after reading a line that is
    "0" once stripped and lower-cased. *)
Lemma main_loop_ends fuel : forall inputs w,
  (length inputs < fuel)%nat ->
  exists e w' new,
    main_loop max_str_digits net files fuel inputs w = Some (e, w')
    /\ log w' = (log w ++ new)%list
    /\ Forall listed_request new
    /\ (e = Goodbye ->
        exists raw, In raw inputs /\ PyStr.lower (PyStr.strip raw) = "0").
Proof.
  induction fuel as [|fuel IH]; intros inputs w Hfuel; [lia |].
  assert (Hstop : forall c,
            exists e w' new,
              Some (Crashed c, w) = Some (e, w')
              /\ log w' = (log w ++ new)%list
              /\ Forall listed_request new
              /\ (e = Goodbye ->
                  exists raw, In raw inputs /\ PyStr.lower (PyStr.strip raw) = "0")).
  { intros c. exists (Crashed c), w, []. rewrite app_nil_r.
    repeat split; [constructor | discriminate]. }
  destruct inputs as [|raw rest]; cbn [main_loop input]; [apply Hstop |].
  simpl in Hfuel.
  assert (Hsel : forall codes,
            Forall (fun code => In code event_codes) codes ->
            exists e w' new,
              match check_all net files codes rest w with
              | inl (c, w') => Some (Crashed c, w')
              | inr (rest', w') => main_loop max_str_digits net files fuel rest' w'
              end = Some (e, w')
              /\ log w' = (log w ++ new)%list
              /\ Forall listed_request new
              /\ (e = Goodbye ->
                  exists raw0, In raw0 (raw :: rest)
                               /\ PyStr.lower (PyStr.strip raw0) = "0")).
  { intros codes Hcodes.
    destruct (check_all_footprint codes rest w Hcodes) as (new1 & Hl1 & Hres).
    destruct (check_all net files codes rest w) as [[c w1] | [rest' w1]].
    - exists (Crashed c), w1, new1. repeat split; auto. discriminate.
    - destruct Hres as (Hlog1 & read & Hrest & Hlen).
      destruct (IH rest' w1) as (e & w' & new & E & Hlog & Hl & Hbye).
      { subst rest. rewrite length_app in Hfuel. lia. }
      exists e, w', (new1 ++ new)%list. split; [exact E |].
      split; [rewrite Hlog, Hlog1; now rewrite app_assoc |].
      split; [now apply Forall_app |].
      intros He. destruct (Hbye He) as (raw0 & Hin & H0).
      exists raw0. split; [| exact H0]. right. subst rest.
      apply in_or_app. now right. }
  destruct (choose max_str_digits raw) as [c | [| | code |]] eqn:Hch.
  - apply Hstop.
  - exists Goodbye, w, []. rewrite app_nil_r.
    repeat split; [constructor |]. intros _. exists raw.
    split; [now left | now apply (choose_exit max_str_digits)].
  - apply Hsel, event_codes_listed.
  - apply Hsel. constructor; [| constructor].
    destruct (choose_stays_in_the_list_aux max_str_digits raw code Hch) as [_ Hin].
    exact Hin.
  - destruct rest as [|line rest']; cbn [input]; [apply Hstop |].
    destruct (IH rest' w) as (e & w' & new & E & Hlog & Hl & Hbye);
      [simpl in Hfuel; lia |].
    exists e, w', new. repeat split; auto.
    intros He. destruct (Hbye He) as (raw0 & Hin & H0).
    exists raw0. split; [right; now right | exact H0].
Qed.

End MainFacts.

(** X23.  [main] ends on every finite input, and whatever the user types
    and whatever the files hold, every request it issues is for the
    certificate of some entry under one of the eight listed event codes. *)
Theorem main_only_probes_listed_codes max_str_digits net files inputs w :
  exists e w' new,
    main max_str_digits net files inputs w = Some (e, w')
    /\ log w' = (log w ++ new)%list
    /\ Forall listed_request new
    /\ (forall u, In (EvRequest u) new ->
          exists code email, In code event_codes /\ u = derive email code).
Proof.
  destruct (main_loop_ends max_str_digits net files (S (length inputs)) inputs w)
    as (e & w' & new & E & Hlog & Hl & _); [lia |].
  exists e, w', new. split; [exact E |]. split; [exact Hlog |].
  split; [exact Hl |].
  intros u Hin. rewrite List.Forall_forall in Hl.
  destruct (Hl _ Hin eq_refl) as (code & email & Hc & Hu).
  injection Hu as ->. eauto.
Qed.



Example main_session :
  main (Some 4300%nat) (always (Responded (response_with 404 "text/html")))
       (fun code => if String.eqb code "41236a8e"
                    then NoHeader [["1"; "a@x.com"]] else Missing)
       ["2"; ""; "9"; ""; " 0 "; "ignored"] w0
  = Some (Goodbye, mkWorld 1 [EvRequest (derive "a@x.com" "41236a8e")]).
Proof. vm_compute. reflexivity. Qed.
